(** * cdo-prototype: the monthly simulation engine and its city projector

    A shallow embedding of [src/cdo-prototype/src/App.tsx]:
    - [simulate], the deterministic monthly recurrence (lines 62-98);
    - [cityCollection], the per-city projection of the last two snapshots
      (lines 185-202);
    - [merge_overlay], the object spread that overlays a loaded JSON
      document on the in-memory parameters (lines 306-312 and 323-329).

    A JavaScript [number] is an IEEE 754 binary64 value; it is modelled by
    Rocq's primitive [float], which is the same format with the same
    round-to-nearest-even operations.  [Math.sin] is the one operation
    ECMAScript leaves implementation-approximated, so the engine is stated
    for an arbitrary [Math_sin : float -> float]. *)

From Stdlib Require Import ZArith List Bool Uint63 Floats Lia.
From stdpp Require Import base option list gmap strings pretty.
Import ListNotations.

Set Warnings "-inexact-float,-register-all".
Local Open Scope float_scope.

(** ** JavaScript numbers *)

Module JSNumber.

(** The double nearest to an integer below 2^63 in magnitude; integers below
    2^53 in magnitude, as the loop counter is, are represented exactly. *)
Definition of_Z (z : Z) : float :=
  match z with
  | Z0 => zero
  | Zpos _ => of_uint63 (Uint63.of_Z z)
  | Zneg _ => - of_uint63 (Uint63.of_Z (- z))
  end.

(** [Number.isNaN] and [Number.isFinite], read off the IEEE datum. *)
Definition isNaN (x : float) : bool :=
  match Prim2SF x with S754_nan => true | _ => false end.

Definition isFinite (x : float) : bool :=
  match Prim2SF x with
  | S754_zero _ | S754_finite _ _ _ => true
  | _ => false
  end.

(** The sign bit: [true] for negative numbers and for [-0]. *)
Definition signbit (x : float) : bool :=
  match Prim2SF x with
  | S754_zero s | S754_infinity s | S754_finite s _ _ => s
  | S754_nan => false
  end.

(** [Math.PI], the double nearest to pi. *)
Definition Math_PI : float := 3.141592653589793.

(** [Math.max(a, b)]: NaN if either argument is NaN, and [+0] counts as
    larger than [-0]. *)
Definition Math_max (a b : float) : float :=
  if isNaN a || isNaN b then nan
  else if a <? b then b
  else if b <? a then a
  else if signbit a then b else a.

(** [Math.min(a, b)]: NaN if either argument is NaN, and [-0] counts as
    smaller than [+0]. *)
Definition Math_min (a b : float) : float :=
  if isNaN a || isNaN b then nan
  else if a <? b then a
  else if b <? a then b
  else if signbit a then a else b.

(** [Math.round(x)]: the integer nearest to [x], ties going up (towards
    +infinity); NaN, the infinities, the zeros and the integers are returned
    unchanged, and a result of zero keeps the sign of [x].  For a finite
    [x = ±m·2^e] with [e < 0] the result is [floor (x + 1/2)], computed on
    integers: it is below 2^53 in magnitude, hence exact. *)
Definition Math_round (x : float) : float :=
  match Prim2SF x with
  | S754_finite s m e =>
      if (0 <=? e)%Z then x
      else
        let z := if s then Zneg m else Zpos m in
        let n := ((2 * z + 2 ^ (- e)) / 2 ^ (1 - e))%Z in
        if (n =? 0)%Z then (if s then neg_zero else zero) else of_Z n
  | _ => x
  end.


End JSNumber.
Import JSNumber.

(** ** The data of a scenario (lines 7-60) *)

Record PeopleProperties := {
  careerOrientation : float;
  openness : float;
  stress : float;
  skills : float;
  memory : float;
  socialNorms : float;
  incomeThousand : float;
  savingsThousand : float;
  fatigue : float;
  illness : float
}.

Record PeopleActions := {
  jobSearchProb : float;
  hireProb : float;
  quitProb : float;
  migrateProb : float;
  trainingRate : float;
  educationRate : float;
  retireAge : float;
  meetRate : float;
  pairCreateRate : float;
  marryRate : float;
  divorceRate : float;
  birthRateAdj : float;
  deathRateAdj : float
}.

Record OrgActions := {
  hireRate : float;
  fireRate : float;
  wageIndex : float;
  hoursIndex : float
}.

(** [months] is the whole number of monthly steps, and the loop counter [t]
    ranges over whole numbers: both are kept in [Z], and [t] is injected
    into the doubles where the code computes with it. *)
Record ScenarioParams := {
  months : Z;
  birthRate : float;
  deathRate : float;
  migrationNet : float;
  employmentShock : float;
  peopleProps : PeopleProperties;
  peopleActions : PeopleActions;
  orgActions : OrgActions
}.

Record TimePoint := {
  t : Z;
  population : float;
  employed : float;
  unemployed : float;
  migration : float
}.

(** ** The engine (lines 62-98) *)

Section Engine.

Variable Math_sin : float -> float.

(** The two variables the loop carries from one month to the next. *)
Record Carried := { cur_population : float; cur_employedShare : float }.

Definition initial : Carried :=
  {| cur_population := 146000000; cur_employedShare := 0.60 |}.

(** One execution of the loop body (lines 69-94) at month [t0]: the carried
    variables after the month, and the snapshot pushed on [result]. *)
Definition body (params : ScenarioParams) (t0 : Z) (st : Carried)
  : Carried * TimePoint :=
  let peopleProps := peopleProps params in
  let peopleActions := peopleActions params in
  let orgActions := orgActions params in
  let population := cur_population st in
  let employedShare := cur_employedShare st in
  let effectiveBirthRate :=
    birthRate params
    * (1 + birthRateAdj peopleActions
       + 0.1 * (pairCreateRate peopleActions + marryRate peopleActions)
       - 0.05 * divorceRate peopleActions) in
  let effectiveDeathRate :=
    deathRate params
    * (1 + deathRateAdj peopleActions + 0.5 * illness peopleProps) in
  let births := (effectiveBirthRate / 12) * population in
  let deaths := (effectiveDeathRate / 12) * population in
  let migFactor :=
    1 + (migrateProb peopleActions - 0.5) * 0.5
      + (wageIndex orgActions - 1) * 0.3 in
  let migration := (migrationNet params / 12) * migFactor in
  let population := population + births - deaths + migration in
  let shock :=
    employmentShock params * Math_sin ((2 * Math_PI * of_Z t0) / 12) in
  let employedShare :=
    employedShare
    + shock
    + 0.02 * (skills peopleProps - 0.5)
    + 0.01 * (jobSearchProb peopleActions - 0.5)
    - 0.01 * (quitProb peopleActions - 0.5)
    + 0.01 * (hireRate orgActions - fireRate orgActions)
    + 0.003 * ((wageIndex orgActions - 1) + (hoursIndex orgActions - 1))
    - 0.02 * (fatigue peopleProps + illness peopleProps - 1.0) in
  let employedShare :=
    employedShare - Math_max 0 (65 - retireAge peopleActions) * 0.002 in
  let employedShare := Math_max 0.45 (Math_min 0.7 employedShare) in
  let employed := population * employedShare in
  let unemployed := Math_max 0 (population * 0.68 - employed) in
  ({| cur_population := population; cur_employedShare := employedShare |},
   {| t := t0;
      population := Math_round population;
      employed := Math_round employed;
      unemployed := Math_round unemployed;
      migration := Math_round migration |}).

(** The [for] loop: while [t < months], run the body, push the snapshot and
    increment [t].  [fuel] bounds the number of iterations; the guard, not
    the fuel, ends the loop once [fuel] is at least [months] (see
    [simulate_fuel_enough]). *)
Fixpoint loop (params : ScenarioParams) (fuel : nat) (t0 : Z) (st : Carried)
    (result : list TimePoint) : Carried * list TimePoint :=
  match fuel with
  | O => (st, result)
  | S fuel' =>
      if (t0 <? months params)%Z then
        let '(st', point) := body params t0 st in
        loop params fuel' (t0 + 1)%Z st' (result ++ [point])
      else (st, result)
  end.

Definition simulate (params : ScenarioParams) : list TimePoint :=
  snd (loop params (Z.to_nat (months params)) 0%Z initial []).

End Engine.

Arguments body : simpl never.

(** The parameters the application starts from (lines 126-165). *)
Definition defaults : ScenarioParams := {|
  months := 36;
  birthRate := 0.011;
  deathRate := 0.013;
  migrationNet := 150000;
  employmentShock := 0.001;
  peopleProps := {|
    careerOrientation := 0.6; openness := 0.5; stress := 0.4; skills := 0.6;
    memory := 0.5; socialNorms := 0.7; incomeThousand := 60;
    savingsThousand := 300; fatigue := 0.3; illness := 0.2 |};
  peopleActions := {|
    jobSearchProb := 0.5; hireProb := 0.3; quitProb := 0.2;
    migrateProb := 0.2; trainingRate := 0.1; educationRate := 0.05;
    retireAge := 64; meetRate := 0.2; pairCreateRate := 0.15;
    marryRate := 0.12; divorceRate := 0.05; birthRateAdj := 0.0;
    deathRateAdj := 0.0 |};
  orgActions := {|
    hireRate := 0.25; fireRate := 0.15; wageIndex := 1.0; hoursIndex := 1.0 |}
|}.

(** ** The city projector (lines 171-202) *)

Record City := { name : string; coords : float * float; pop : float }.

Definition cities : list City := [
  {| name := "Москва"; coords := (37.6176, 55.7558); pop := 12600000 |};
  {| name := "Санкт‑Петербург"; coords := (30.3158, 59.9391); pop := 5600000 |};
  {| name := "Новосибирск"; coords := (82.9346, 55.0084); pop := 1620000 |};
  {| name := "Екатеринбург"; coords := (60.6122, 56.8389); pop := 1550000 |};
  {| name := "Казань"; coords := (49.1064, 55.7963); pop := 1350000 |};
  {| name := "Нижний Новгород"; coords := (44.002, 56.3269); pop := 1250000 |};
  {| name := "Самара"; coords := (50.15, 53.2); pop := 1160000 |};
  {| name := "Омск"; coords := (73.3686, 54.9914); pop := 1120000 |};
  {| name := "Ростов‑на‑Дону"; coords := (39.7015, 47.2357); pop := 1130000 |};
  {| name := "Уфа"; coords := (55.9678, 54.7388); pop := 1130000 |};
  {| name := "Красноярск"; coords := (92.868, 56.0153); pop := 1100000 |}
].

(** A GeoJSON point feature: its [properties] and the coordinates of its
    [geometry]. *)
Record Feature := {
  feature_name : string;
  value : float;
  growth : float;
  coordinates : float * float
}.

(** [a[i]] for a number [i]: [undefined] ([None]) outside [0 .. length-1]. *)
Definition js_index {A : Type} (a : list A) (i : Z) : option A :=
  if (i <? 0)%Z then None else a !! Z.to_nat i.

(** [cities.reduce((s, c) => s + c.pop, 0)]. *)
Definition totalBase (cities : list City) : float :=
  fold_left (fun s c => s + pop c) cities 0.

(** The features of the collection.  [None] is the [TypeError] that
    reading [last.employed] raises when [data] is empty and [last] is
    [undefined]. *)
Definition cityCollection (cities : list City) (data : list TimePoint)
  : option (list Feature) :=
  let last := js_index data (Z.of_nat (length data) - 1) in
  let prev := js_index data (Z.max 0 (Z.of_nat (length data) - 2)) in
  let totalBase := totalBase cities in
  match last, prev with
  | Some last, Some prev =>
      let employedDelta := employed last - employed prev in
      Some (map (fun c =>
                   {| feature_name := name c;
                      value := Math_round ((pop c / totalBase) * employed last);
                      growth := Math_round ((pop c / totalBase) * employedDelta);
                      coordinates := coords c |})
                cities)
  | _, _ => None
  end.

(** ** Overlaying a loaded document on the parameters (lines 306-312, 323-329) *)

(** JavaScript values as far as [JSON.parse] produces them, and [undefined]
    for what an object lacks. *)
Inductive JSValue :=
| JUndefined
| JNull
| JBoolean (b : bool)
| JNumber (x : float)
| JString (s : string)
| JArray (elements : list JSValue)
| JObject (props : gmap string JSValue).

(** [o.k] on an object: [undefined] when [o] has no property [k]. *)
Definition get (o : gmap string JSValue) (k : string) : JSValue :=
  default JUndefined (o !! k).

(** [a ?? b]. *)
Definition nullish (a b : JSValue) : JSValue :=
  match a with
  | JUndefined | JNull => b
  | _ => a
  end.

(** The own enumerable properties that [...v] copies: those of an object,
    the indexed elements of an array, the indexed characters of a string
    (of an ASCII string, here), none otherwise. *)
Definition spread (v : JSValue) : gmap string JSValue :=
  match v with
  | JObject o => o
  | JArray l => list_to_map (imap (fun i x => (pretty i, x)) l)
  | JString s =>
      list_to_map
        (imap (fun i c => (pretty i, JString (String c EmptyString)))
              (String.list_ascii_of_string s))
  | _ => ∅
  end.

(** [v.k] for one of the three group names [k]: a [TypeError] ([None]) on
    [null] and [undefined]; [undefined] on the values that are not objects,
    none of which has a property of these names. *)
Definition member (v : JSValue) (k : string) : option JSValue :=
  match v with
  | JUndefined | JNull => None
  | JObject o => Some (get o k)
  | _ => Some JUndefined
  end.

(** The updater passed to [setParams]:
    [p => ({ ...p, ...json, peopleProps: json.peopleProps ?? p.peopleProps,
             peopleActions: ..., orgActions: ... })]. *)
Definition merge_overlay (p : gmap string JSValue) (json : JSValue)
  : option (gmap string JSValue) :=
  match member json "peopleProps", member json "peopleActions",
        member json "orgActions" with
  | Some props, Some actions, Some org =>
      Some (<["orgActions" := nullish org (get p "orgActions")]>
            (<["peopleActions" := nullish actions (get p "peopleActions")]>
             (<["peopleProps" := nullish props (get p "peopleProps")]>
              (spread json ∪ p))))
  | _, _, _ => None
  end.

(** The three grouped sub-objects. *)
Definition groups : list string := ["peopleProps"; "peopleActions"; "orgActions"].

(** [o.g.f]: the field [f] of the sub-object [g] of [o], [undefined] when
    [o.g] is not an object or lacks [f]. *)
Definition field (o : gmap string JSValue) (g f : string) : JSValue :=
  match get o g with
  | JObject sub => get sub f
  | _ => JUndefined
  end.

(** A parameter set as the object the application holds. *)
Definition object_of_PeopleProperties (x : PeopleProperties) : JSValue :=
  JObject (list_to_map [
    ("careerOrientation", JNumber (careerOrientation x));
    ("openness", JNumber (openness x));
    ("stress", JNumber (stress x));
    ("skills", JNumber (skills x));
    ("memory", JNumber (memory x));
    ("socialNorms", JNumber (socialNorms x));
    ("incomeThousand", JNumber (incomeThousand x));
    ("savingsThousand", JNumber (savingsThousand x));
    ("fatigue", JNumber (fatigue x));
    ("illness", JNumber (illness x)) ]).

Definition object_of_PeopleActions (x : PeopleActions) : JSValue :=
  JObject (list_to_map [
    ("jobSearchProb", JNumber (jobSearchProb x));
    ("hireProb", JNumber (hireProb x));
    ("quitProb", JNumber (quitProb x));
    ("migrateProb", JNumber (migrateProb x));
    ("trainingRate", JNumber (trainingRate x));
    ("educationRate", JNumber (educationRate x));
    ("retireAge", JNumber (retireAge x));
    ("meetRate", JNumber (meetRate x));
    ("pairCreateRate", JNumber (pairCreateRate x));
    ("marryRate", JNumber (marryRate x));
    ("divorceRate", JNumber (divorceRate x));
    ("birthRateAdj", JNumber (birthRateAdj x));
    ("deathRateAdj", JNumber (deathRateAdj x)) ]).

Definition object_of_OrgActions (x : OrgActions) : JSValue :=
  JObject (list_to_map [
    ("hireRate", JNumber (hireRate x));
    ("fireRate", JNumber (fireRate x));
    ("wageIndex", JNumber (wageIndex x));
    ("hoursIndex", JNumber (hoursIndex x)) ]).

Definition object_of_params (x : ScenarioParams) : gmap string JSValue :=
  list_to_map [
    ("months", JNumber (of_Z (months x)));
    ("birthRate", JNumber (birthRate x));
    ("deathRate", JNumber (deathRate x));
    ("migrationNet", JNumber (migrationNet x));
    ("employmentShock", JNumber (employmentShock x));
    ("peopleProps", object_of_PeopleProperties (peopleProps x));
    ("peopleActions", object_of_PeopleActions (peopleActions x));
    ("orgActions", object_of_OrgActions (orgActions x)) ].

(** ** The engine and the projector as the specification words them

    These definitions follow the text of the specification (sections 4.1
    and 4.2), independently of [body] and [cityCollection]; the theorems
    below compare the two. *)

Module Spec.
Section Recurrence.

Variable Math_sin : float -> float.
Variable params : ScenarioParams.

Let birthRateAdj := birthRateAdj (peopleActions params).
Let deathRateAdj := deathRateAdj (peopleActions params).
Let pairCreateRate := pairCreateRate (peopleActions params).
Let marryRate := marryRate (peopleActions params).
Let divorceRate := divorceRate (peopleActions params).
Let migrateProb := migrateProb (peopleActions params).
Let jobSearchProb := jobSearchProb (peopleActions params).
Let quitProb := quitProb (peopleActions params).
Let retireAge := retireAge (peopleActions params).
Let skills := skills (peopleProps params).
Let fatigue := fatigue (peopleProps params).
Let illness := illness (peopleProps params).
Let hireRate := hireRate (orgActions params).
Let fireRate := fireRate (orgActions params).
Let wageIndex := wageIndex (orgActions params).
Let hoursIndex := hoursIndex (orgActions params).

Definition births (population : float) : float :=
  (birthRate params
   * (1 + birthRateAdj + 0.1 * (pairCreateRate + marryRate)
      - 0.05 * divorceRate)) / 12 * population.

Definition deaths (population : float) : float :=
  (deathRate params * (1 + deathRateAdj + 0.5 * illness)) / 12 * population.

Definition migration : float :=
  migrationNet params / 12
  * (1 + (migrateProb - 0.5) * 0.5 + (wageIndex - 1) * 0.3).

(** The population carried into month [n]: 146,000,000 at the start, and
    [population + births - deaths + migration] after each month. *)
Fixpoint population (n : nat) : float :=
  match n with
  | O => 146000000
  | S k =>
      let population := population k in
      population + births population - deaths population + migration
  end.

Definition shock (t : Z) : float :=
  employmentShock params * Math_sin (2 * Math_PI * of_Z t / 12).

(** The terms added to employedShare in month [t], in the order of the
    specification. *)
Definition terms (t : Z) : list float := [
  shock t;
  0.02 * (skills - 0.5);
  0.01 * (jobSearchProb - 0.5);
  -0.01 * (quitProb - 0.5);
  0.01 * (hireRate - fireRate);
  0.003 * ((wageIndex - 1) + (hoursIndex - 1));
  -0.02 * (fatigue + illness - 1.0)
].

Definition retirement_penalty : float := Math_max 0 (65 - retireAge) * 0.002.

(** employedShare after the additions of month [t], before clamping. *)
Definition unclamped (t : Z) (employedShare : float) : float :=
  fold_left add (terms t) employedShare - retirement_penalty.

Definition clamp (x : float) : float := Math_max 0.45 (Math_min 0.7 x).

(** The employedShare carried into month [n]: 0.60 at the start. *)
Fixpoint employedShare (n : nat) : float :=
  match n with
  | O => 0.60
  | S k => clamp (unclamped (Z.of_nat k) (employedShare k))
  end.

End Recurrence.
(** The projector of section 4.2. *)

(** The last snapshot and the one before it; a single snapshot is its own
    predecessor. *)
Definition last_two (snapshots : list TimePoint)
  : option (TimePoint * TimePoint) :=
  match rev snapshots with
  | [] => None
  | [only] => Some (only, only)
  | last :: previous :: _ => Some (last, previous)
  end.

(** The sum of the weights, taken from the first location on. *)
Definition totalWeight (locations : list City) : float :=
  fold_left add (map pop locations) 0.

Definition attributes (totalWeight : float) (last previous : TimePoint)
    (location : City) : Feature :=
  {| feature_name := name location;
     value := Math_round (pop location / totalWeight * employed last);
     growth :=
       Math_round
         (pop location / totalWeight * (employed last - employed previous));
     coordinates := coords location |}.

End Spec.

(** ** Running the model

    [Math.sin] is implementation-approximated; the theorems hold for every
    [Math_sin].  To run the engine on concrete inputs, [sin_taylor] is one
    such approximation: the argument reduced to [-pi, pi], then the odd
    Taylor polynomial of degree 21.  It returns [+0] at [+0]. *)
Definition sin_taylor (x : float) : float :=
  if isFinite x then
    let k := Math_round (x / (2 * Math_PI)) in
    let r := x - k * (2 * Math_PI) in
    let r2 := r * r in
    r * (1 - r2 / 6 * (1 - r2 / 20 * (1 - r2 / 42 * (1 - r2 / 72
      * (1 - r2 / 110 * (1 - r2 / 156 * (1 - r2 / 210 * (1 - r2 / 272
      * (1 - r2 / 342 * (1 - r2 / 420))))))))))
  else nan.

(** The carried variables after [n] iterations of the loop. *)
Definition carried_after (Math_sin : float -> float) (params : ScenarioParams)
    (n : nat) : Carried :=
  fst (loop Math_sin params n 0%Z initial []).

(** The carried variables on entry to month [n] (after [n] executions of
    the body), and the snapshot that month [n] pushes. *)
Fixpoint state_after (Math_sin : float -> float) (params : ScenarioParams)
    (n : nat) : Carried :=
  match n with
  | O => initial
  | S k => fst (body Math_sin params (Z.of_nat k) (state_after Math_sin params k))
  end.

Definition snapshot_at (Math_sin : float -> float) (params : ScenarioParams)
    (n : nat) : TimePoint :=
  snd (body Math_sin params (Z.of_nat n) (state_after Math_sin params n)).

(** The number of months the guard [t < months] lets through from [t = k]. *)
Definition remaining (params : ScenarioParams) (k : nat) : nat :=
  Z.to_nat (months params - Z.of_nat k).

(** ** Structural identity *)








(** ** Inputs of the examples *)

(** The default parameters with another horizon. *)
Definition defaults_for (horizon : Z) : ScenarioParams := {|
  months := horizon;
  birthRate := birthRate defaults;
  deathRate := deathRate defaults;
  migrationNet := migrationNet defaults;
  employmentShock := employmentShock defaults;
  peopleProps := peopleProps defaults;
  peopleActions := peopleActions defaults;
  orgActions := orgActions defaults
|}.

(** The default parameters for a single month, with infinite [skills] and
    [fatigue] (a JSON document can carry them as [1e999]). *)
Definition infinite_skills_and_fatigue : ScenarioParams := {|
  months := 1;
  birthRate := birthRate defaults;
  deathRate := deathRate defaults;
  migrationNet := migrationNet defaults;
  employmentShock := employmentShock defaults;
  peopleProps := {|
    careerOrientation := 0.6; openness := 0.5; stress := 0.4;
    skills := infinity;
    memory := 0.5; socialNorms := 0.7; incomeThousand := 60;
    savingsThousand := 300;
    fatigue := infinity;
    illness := 0.2 |};
  peopleActions := peopleActions defaults;
  orgActions := orgActions defaults
|}.

(** The default parameters for a single month, with infinite net migration
    (a JSON document can carry it as [1e999]). *)
Definition infinite_migration : ScenarioParams := {|
  months := 1;
  birthRate := birthRate defaults;
  deathRate := deathRate defaults;
  migrationNet := infinity;
  employmentShock := employmentShock defaults;
  peopleProps := peopleProps defaults;
  peopleActions := peopleActions defaults;
  orgActions := orgActions defaults
|}.

(** A single city of weight zero, and a snapshot with ordinary numbers. *)
Definition weightless : list City :=
  [ {| name := "A"; coords := (0, 0); pop := 0 |} ].

Definition ordinary_point : TimePoint :=
  {| t := 0; population := 145973754; employed := 89627885;
     unemployed := 9634268; migration := 10625 |}.

(** The document [{"peopleProps": {"skills": 0.9}}]. *)
Definition skills_only : JSValue :=
  JObject {[ "peopleProps" := JObject {[ "skills" := JNumber 0.9 ]} ]}.

(** ** Variations of a parameter set *)

(** [params] with another horizon. *)
Definition with_months (params : ScenarioParams) (horizon : Z)
  : ScenarioParams := {|
  months := horizon;
  birthRate := birthRate params;
  deathRate := deathRate params;
  migrationNet := migrationNet params;
  employmentShock := employmentShock params;
  peopleProps := peopleProps params;
  peopleActions := peopleActions params;
  orgActions := orgActions params
|}.

(** [params] with other values in the eleven fields that have a slider but
    that [simulate] does not read: seven of [peopleProps] (taken from
    [props]) and four of [peopleActions] (taken from [actions]). *)
Definition with_unread (params : ScenarioParams) (props : PeopleProperties)
    (actions : PeopleActions) : ScenarioParams := {|
  months := months params;
  birthRate := birthRate params;
  deathRate := deathRate params;
  migrationNet := migrationNet params;
  employmentShock := employmentShock params;
  peopleProps := {|
    careerOrientation := careerOrientation props;
    openness := openness props;
    stress := stress props;
    skills := skills (peopleProps params);
    memory := memory props;
    socialNorms := socialNorms props;
    incomeThousand := incomeThousand props;
    savingsThousand := savingsThousand props;
    fatigue := fatigue (peopleProps params);
    illness := illness (peopleProps params) |};
  peopleActions := {|
    jobSearchProb := jobSearchProb (peopleActions params);
    hireProb := hireProb actions;
    quitProb := quitProb (peopleActions params);
    migrateProb := migrateProb (peopleActions params);
    trainingRate := trainingRate actions;
    educationRate := educationRate actions;
    retireAge := retireAge (peopleActions params);
    meetRate := meetRate actions;
    pairCreateRate := pairCreateRate (peopleActions params);
    marryRate := marryRate (peopleActions params);
    divorceRate := divorceRate (peopleActions params);
    birthRateAdj := birthRateAdj (peopleActions params);
    deathRateAdj := deathRateAdj (peopleActions params) |};
  orgActions := orgActions params
|}.

(** [params] with other values in the inputs of the employment side only:
    [employmentShock], [skills], [fatigue], [jobSearchProb], [quitProb],
    [retireAge], [hireRate], [fireRate], [hoursIndex] (taken from
    [other]). *)
Definition with_employment_inputs (params other : ScenarioParams)
  : ScenarioParams := {|
  months := months params;
  birthRate := birthRate params;
  deathRate := deathRate params;
  migrationNet := migrationNet params;
  employmentShock := employmentShock other;
  peopleProps := {|
    careerOrientation := careerOrientation (peopleProps params);
    openness := openness (peopleProps params);
    stress := stress (peopleProps params);
    skills := skills (peopleProps other);
    memory := memory (peopleProps params);
    socialNorms := socialNorms (peopleProps params);
    incomeThousand := incomeThousand (peopleProps params);
    savingsThousand := savingsThousand (peopleProps params);
    fatigue := fatigue (peopleProps other);
    illness := illness (peopleProps params) |};
  peopleActions := {|
    jobSearchProb := jobSearchProb (peopleActions other);
    hireProb := hireProb (peopleActions params);
    quitProb := quitProb (peopleActions other);
    migrateProb := migrateProb (peopleActions params);
    trainingRate := trainingRate (peopleActions params);
    educationRate := educationRate (peopleActions params);
    retireAge := retireAge (peopleActions other);
    meetRate := meetRate (peopleActions params);
    pairCreateRate := pairCreateRate (peopleActions params);
    marryRate := marryRate (peopleActions params);
    divorceRate := divorceRate (peopleActions params);
    birthRateAdj := birthRateAdj (peopleActions params);
    deathRateAdj := deathRateAdj (peopleActions params) |};
  orgActions := {|
    hireRate := hireRate (orgActions other);
    fireRate := fireRate (orgActions other);
    wageIndex := wageIndex (orgActions params);
    hoursIndex := hoursIndex (orgActions other) |}
|}.

(** ** Saving and loading the parameters (lines 316-331) *)

(** [JSON.parse(JSON.stringify(v))] on values: a number that is not finite
    becomes [null], [-0] becomes [0], a property whose value is [undefined]
    is left out, an array element that is [undefined] becomes [null];
    everything else comes back as it was.  [None] stands for the
    [SyntaxError] of parsing the text of [undefined]. *)
Fixpoint JSON_clone (v : JSValue) : option JSValue :=
  match v with
  | JUndefined => None
  | JNull => Some JNull
  | JBoolean b => Some (JBoolean b)
  | JNumber x =>
      Some (if isFinite x then JNumber (if is_zero x then 0 else x)
            else JNull)
  | JString s => Some (JString s)
  | JArray elements =>
      Some (JArray (map (fun e => default JNull (JSON_clone e)) elements))
  | JObject props => Some (JObject (omap JSON_clone props))
  end.

(** The item ['policy'] of the local storage: absent, or a JSON text, which
    is kept as the value it parses to. *)
Definition Storage := option JSValue.

(** "Save settings": [localStorage.setItem('policy', JSON.stringify(params))]. *)
Definition save (params : gmap string JSValue) : Storage :=
  JSON_clone (JObject params).

(** "Load settings": nothing happens without a saved item; otherwise the
    parsed item is merged into the current parameters ([None]: the updater
    raises). *)
Definition load (storage : Storage) (current : gmap string JSValue)
  : option (gmap string JSValue) :=
  match storage with
  | None => Some current
  | Some json => merge_overlay current json
  end.

(** A parameter set whose numbers all survive serialisation: finite, and
    not [-0]. *)
Definition serialisable_number (x : float) : bool :=
  isFinite x && negb (is_zero x && signbit x).

Definition serialisable_PeopleProperties (x : PeopleProperties) : bool :=
  serialisable_number (careerOrientation x)
  && serialisable_number (openness x)
  && serialisable_number (stress x)
  && serialisable_number (skills x)
  && serialisable_number (memory x)
  && serialisable_number (socialNorms x)
  && serialisable_number (incomeThousand x)
  && serialisable_number (savingsThousand x)
  && serialisable_number (fatigue x)
  && serialisable_number (illness x).

Definition serialisable_PeopleActions (x : PeopleActions) : bool :=
  serialisable_number (jobSearchProb x)
  && serialisable_number (hireProb x)
  && serialisable_number (quitProb x)
  && serialisable_number (migrateProb x)
  && serialisable_number (trainingRate x)
  && serialisable_number (educationRate x)
  && serialisable_number (retireAge x)
  && serialisable_number (meetRate x)
  && serialisable_number (pairCreateRate x)
  && serialisable_number (marryRate x)
  && serialisable_number (divorceRate x)
  && serialisable_number (birthRateAdj x)
  && serialisable_number (deathRateAdj x).

Definition serialisable_OrgActions (x : OrgActions) : bool :=
  serialisable_number (hireRate x)
  && serialisable_number (fireRate x)
  && serialisable_number (wageIndex x)
  && serialisable_number (hoursIndex x).

Definition serialisable_params (x : ScenarioParams) : bool :=
  serialisable_number (of_Z (months x))
  && serialisable_number (birthRate x)
  && serialisable_number (deathRate x)
  && serialisable_number (migrationNet x)
  && serialisable_number (employmentShock x)
  && serialisable_PeopleProperties (peopleProps x)
  && serialisable_PeopleActions (peopleActions x)
  && serialisable_OrgActions (orgActions x).

(** ** The CSV export (lines 477-479) *)

(** The line feed and the comma. *)
Definition LF : Ascii.ascii := Eval compute in Ascii.ascii_of_nat 10.
Definition COMMA : Ascii.ascii := Eval compute in Ascii.ascii_of_nat 44.

Section CsvExport.

(** [Number.prototype.toString], as the template literal applies it to each
    field; the export is stated for an arbitrary one. *)
Variable Number_toString : float -> string.

Definition header : string :=
  "t,population,employed,unemployed,migration" +:+ String LF "".

(** [`${d.t},${d.population},${d.employed},${d.unemployed},${d.migration}`]. *)
Definition csv_row (d : TimePoint) : string :=
  Number_toString (of_Z (t d)) +:+ "," +:+
  Number_toString (population d) +:+ "," +:+
  Number_toString (employed d) +:+ "," +:+
  Number_toString (unemployed d) +:+ "," +:+
  Number_toString (migration d).

(** [header + data.map(...).join('\n')], the content of the blob. *)
Definition csv_text (data : list TimePoint) : string :=
  header +:+ String.concat (String LF "") (map csv_row data).

End CsvExport.

(** [s.split(c)] for a one-character separator. *)
Fixpoint split_on (c : Ascii.ascii) (s : string) : list string :=
  match s with
  | EmptyString => [EmptyString]
  | String a s' =>
      if Ascii.eqb a c then EmptyString :: split_on c s'
      else match split_on c s' with
           | piece :: rest => String a piece :: rest
           | [] => [String a EmptyString]
           end
  end.

(** [c] does not occur in [s]. *)
Fixpoint absent (c : Ascii.ascii) (s : string) : bool :=
  match s with
  | EmptyString => true
  | String a s' => negb (Ascii.eqb a c) && absent c s'
  end.

(** The five printed fields of a snapshot contain neither a comma nor a
    line feed. *)
Definition prints_cleanly (Number_toString : float -> string)
    (d : TimePoint) : bool :=
  forallb (fun s => absent COMMA s && absent LF s)
    [ Number_toString (of_Z (t d)); Number_toString (population d);
      Number_toString (employed d); Number_toString (unemployed d);
      Number_toString (migration d) ].

(** One [Number.prototype.toString] to run the export with: exact on NaN,
    the infinities, the zeros and the integers below 2^53 in magnitude,
    which is what [Math.round] leaves in a snapshot of ordinary size. *)
Definition integer_toString (x : float) : string :=
  match Prim2SF x with
  | S754_nan => "NaN"
  | S754_infinity false => "Infinity"
  | S754_infinity true => "-Infinity"
  | S754_zero _ => "0"
  | S754_finite s m e =>
      let magnitude :=
        if (0 <=? e)%Z then (Zpos m * 2 ^ e)%Z else (Zpos m / 2 ^ (- e))%Z in
      (if s then "-" else "") +:+ pretty magnitude
  end.

(** ** The whole run, from the two recurrences of the specification *)

(** The snapshot of month [n], from the population and the employedShare
    that the recurrences [Spec.population] and [Spec.employedShare] give
    after [n + 1] months. *)
Definition spec_snapshot (Math_sin : float -> float) (params : ScenarioParams)
    (n : nat) : TimePoint :=
  let population := Spec.population params (S n) in
  let employedShare := Spec.employedShare Math_sin params (S n) in
  let employed := population * employedShare in
  {| t := Z.of_nat n;
     population := Math_round population;
     employed := Math_round employed;
     unemployed := Math_round (Math_max 0 (population * 0.68 - employed));
     migration := Math_round (Spec.migration params) |}.

(** ** The request logger of the development server (vite.config.ts) *)

(** A header of a request: a string, or an array of strings. *)
Inductive HeaderValue :=
| HString (s : string)
| HArray (values : list string).

(** What [handler] reads of a request; [None] is [undefined].  [socket]
    holds [req.socket.remoteAddress] when the request has a socket. *)
Record Request := {
  method : option string;
  url : option string;
  headers : option (gmap string HeaderValue);
  socket : option (option string)
}.

(** [s || d] for a string or [undefined]: the empty string is falsy. *)
Definition or_else (s : option string) (d : string) : string :=
  match s with
  | Some s => if decide (s = "") then d else s
  | None => d
  end.

(** A header in a template literal: an array prints its elements joined by
    commas. *)
Definition print_header (v : HeaderValue) : string :=
  match v with
  | HString s => s
  | HArray values => String.concat "," values
  end.

(** The white space that [trim] removes, among the characters of a header
    (code units below 256): tab, line feed, vertical tab, form feed,
    carriage return, space and no-break space. *)
Definition js_whitespace (a : Ascii.ascii) : bool :=
  existsb (Nat.eqb (Ascii.nat_of_ascii a))
    [9%nat; 10%nat; 11%nat; 12%nat; 13%nat; 32%nat; 160%nat].

Fixpoint skip_whitespace (l : list Ascii.ascii) : list Ascii.ascii :=
  match l with
  | a :: l' => if js_whitespace a then skip_whitespace l' else l
  | [] => []
  end.

(** [s.trim()]. *)
Definition trim (s : string) : string :=
  String.string_of_list_ascii
    (rev (skip_whitespace
            (rev (skip_whitespace (String.list_ascii_of_string s))))).

(** [(req.socket && req.socket.remoteAddress) || '']. *)
Definition socket_address (req : Request) : string :=
  match socket req with
  | Some address => or_else address ""
  | None => ""
  end.

(** The [ip] of the log line (line 608). *)
Definition logged_ip (req : Request) : string :=
  match headers req ≫= (.!! "x-forwarded-for") with
  | Some (HArray values) => default "undefined" (head values)
  | Some (HString fwd) =>
      if decide (fwd = "") then socket_address req
      else trim (default "" (head (split_on COMMA fwd)))
  | None => socket_address req
  end.

(** The [ua] of the log line (line 605). *)
Definition logged_ua (req : Request) : string :=
  match headers req with
  | None => "undefined"
  | Some h =>
      match h !! "user-agent" with
      | None => ""
      | Some (HString s) => s
      | Some v => print_header v
      end
  end.

Definition TAB : Ascii.ascii := Eval compute in Ascii.ascii_of_nat 9.

(** [handler] at the time [ts] (the text of [new Date().toISOString()]):
    the text appended to the log file, if any. *)
Definition handler (req : Request) (ts : string) : option string :=
  let method := or_else (method req) "GET" in
  if decide (method = "GET") then
    let url := or_else (url req) "/" in
    Some (ts +:+ String TAB (logged_ip req) +:+ String TAB (logged_ua req)
          +:+ String TAB method +:+ " " +:+ url +:+ String LF "")
  else None.

(** [s] neither starts nor ends with white space. *)
Definition trimmed (s : string) : bool :=
  match String.list_ascii_of_string s with
  | [] => true
  | first :: _ => negb (js_whitespace first)
  end
  && match rev (String.list_ascii_of_string s) with
     | [] => true
     | last :: _ => negb (js_whitespace last)
     end.

(** A request with another socket. *)
Definition with_socket (req : Request) (s : option (option string))
  : Request :=
  {| method := method req; url := url req; headers := headers req;
     socket := s |}.

(** A request that went through two proxies. *)
Definition forwarded_headers : gmap string HeaderValue :=
  {[ "x-forwarded-for" := HString "  203.0.113.7 , 10.0.0.1";
     "user-agent" := HString "curl/8" ]}.

Definition forwarded_request : Request :=
  {| method := None; url := Some "/data/policy.json";
     headers := Some forwarded_headers;
     socket := Some (Some "127.0.0.1") |}.

(** ** Facts about doubles *)

Module JSNumberFacts.

Lemma SFcompare_antisym (x y : spec_float) :
  SFcompare y x = option_map CompOpp (SFcompare x y).
Proof.
  destruct x as [sx|sx| |sx mx ex], y as [sy|sy| |sy my ey]; simpl;
    try destruct sx; try destruct sy; simpl; try reflexivity.
  all: rewrite (Z.compare_antisym ey ex);
    destruct (ey ?= ex)%Z; simpl; try reflexivity.
  all: pose proof (Pos.compare_antisym my mx) as Hm; unfold Pos.compare in Hm.
  all: rewrite Hm; now destruct (Pos.compare_cont Eq my mx).
Qed.

Lemma isNaN_compare (x y : float) :
  isNaN x = false -> isNaN y = false ->
  SFcompare (Prim2SF x) (Prim2SF y) <> None.
Proof.
  unfold isNaN.
  destruct (Prim2SF x) as [sx|sx| |sx mx ex], (Prim2SF y) as [sy|sy| |sy my ey];
    simpl; congruence.
Qed.




(** Off NaN, [Math.max] and [Math.min] return one of their arguments. *)
Lemma Math_max_cases (a b : float) :
  isNaN a = false -> isNaN b = false ->
  Math_max a b = a \/ Math_max a b = b.
Proof.
  intros Ha Hb. unfold Math_max. rewrite Ha, Hb. simpl.
  destruct (a <? b), (b <? a), (signbit a); auto.
Qed.

Lemma Math_min_cases (a b : float) :
  isNaN a = false -> isNaN b = false ->
  Math_min a b = a \/ Math_min a b = b.
Proof.
  intros Ha Hb. unfold Math_min. rewrite Ha, Hb. simpl.
  destruct (a <? b), (b <? a), (signbit a); auto.
Qed.

Lemma Math_max_isNaN (a b : float) :
  isNaN (Math_max a b) = isNaN a || isNaN b.
Proof.
  destruct (isNaN a) eqn:Ha, (isNaN b) eqn:Hb; simpl;
    try (unfold Math_max; rewrite Ha, Hb; reflexivity).
  destruct (Math_max_cases a b Ha Hb) as [-> | ->]; assumption.
Qed.

Lemma Math_min_isNaN (a b : float) :
  isNaN (Math_min a b) = isNaN a || isNaN b.
Proof.
  destruct (isNaN a) eqn:Ha, (isNaN b) eqn:Hb; simpl;
    try (unfold Math_min; rewrite Ha, Hb; reflexivity).
  destruct (Math_min_cases a b Ha Hb) as [-> | ->]; assumption.
Qed.



(** *** Rounding an integer to a double keeps its sign *)









(** *** Zero *)

(** [x == 0] holds exactly of the two zeros. *)
Lemma is_zero_spec (x : float) :
  is_zero x = true <-> exists s, Prim2SF x = S754_zero s.
Proof.
  unfold is_zero. rewrite FloatAxioms.eqb_spec. change (Prim2SF zero) with (S754_zero false).
  destruct (Prim2SF x) as [s|[]| |[] m e]; simpl; split;
    try discriminate; try (intros [s' Hs]; discriminate); eauto.
Qed.

(** A finite number minus itself is [+0]. *)
Lemma sub_diag_finite (x : float) :
  isFinite x = true -> Prim2SF (x - x) = S754_zero false.
Proof.
  unfold isFinite. rewrite sub_spec. unfold SF64sub, SFsub.
  destruct (Prim2SF x) as [[]|s| |s m e]; try discriminate; try reflexivity.
  intros _. now rewrite Z.sub_diag.
Qed.

(** A finite number times a zero is a zero. *)
Lemma mul_zero_r_finite (r y : float) :
  isFinite r = true -> is_zero y = true -> is_zero (r * y) = true.
Proof.
  unfold isFinite. rewrite !is_zero_spec, mul_spec. intros Hr [s Hy].
  rewrite Hy. unfold SF64mul, SFmul.
  destruct (Prim2SF r) as [sr|sr| |sr m e]; try discriminate; eauto.
Qed.

Lemma Math_round_zero (x : float) :
  is_zero x = true -> is_zero (Math_round x) = true.
Proof.
  intros Hx. pose proof Hx as [s Hs]%is_zero_spec.
  unfold Math_round. now rewrite Hs.
Qed.

(** *** Subtraction as addition of the opposite *)

Lemma SFsub_add_opp (x y : spec_float) :
  SFsub prec emax x y = SFadd prec emax x (SFopp y).
Proof.
  destruct x as [sx|sx| |sx mx ex], y as [sy|sy| |sy my ey]; simpl;
    try reflexivity;
    destruct sx, sy; reflexivity.
Qed.

Lemma sub_add_opp (x y : float) : x - y = x + - y.
Proof.
  apply Prim2SF_inj.
  rewrite sub_spec, add_spec, opp_spec. apply SFsub_add_opp.
Qed.

Lemma SFopp_binary_round_aux (s : bool) (m e : Z) (l : location) :
  SFopp (binary_round_aux prec emax s m e l)
  = binary_round_aux prec emax (negb s) m e l.
Proof.
  unfold binary_round_aux.
  destruct (shr_fexp prec emax m e l) as [mrs' e'].
  destruct (shr_fexp prec emax _ e' loc_Exact) as [mrs'' e''].
  destruct (shr_m mrs'') as [|p|p]; try reflexivity.
  now destruct (e'' <=? emax - prec)%Z.
Qed.

Lemma SFmul_opp_l (x y : spec_float) :
  SFmul prec emax (SFopp x) y = SFopp (SFmul prec emax x y).
Proof.
  destruct x as [sx|sx| |sx mx ex], y as [sy|sy| |sy my ey]; simpl;
    try reflexivity;
    try (destruct sx, sy; reflexivity).
  rewrite SFopp_binary_round_aux. now destruct sx, sy.
Qed.

Lemma mul_opp_l (x y : float) : - x * y = - (x * y).
Proof.
  apply Prim2SF_inj.
  rewrite mul_spec, !opp_spec, mul_spec. apply SFmul_opp_l.
Qed.

(** Subtracting [a * y] is adding [(-a) * y]. *)
Lemma sub_mul_neg (x a y : float) : x - a * y = x + - a * y.
Proof. now rewrite mul_opp_l, sub_add_opp. Qed.
End JSNumberFacts.

Import JSNumberFacts.

(** ** The loop, month by month *)

Section Trajectory.

Variable Math_sin : float -> float.
Variable params : ScenarioParams.

Local Abbreviation state_after := (state_after Math_sin params).
Local Abbreviation snapshot_at := (snapshot_at Math_sin params).
Local Abbreviation remaining := (remaining params).

Lemma loop_S (fuel : nat) (t0 : Z) (st : Carried) (result : list TimePoint) :
  loop Math_sin params (S fuel) t0 st result
  = if (t0 <? months params)%Z
    then loop Math_sin params fuel (t0 + 1)%Z
           (fst (body Math_sin params t0 st))
           (result ++ [snd (body Math_sin params t0 st)])
    else (st, result).
Proof.
  simpl. destruct (t0 <? months params)%Z; [|reflexivity].
  now destruct (body Math_sin params t0 st).
Qed.

Lemma loop_unroll (fuel k : nat) (result : list TimePoint) :
  loop Math_sin params fuel (Z.of_nat k) (state_after k) result
  = (state_after (k + Nat.min fuel (remaining k)),
     result ++ map snapshot_at (seq k (Nat.min fuel (remaining k)))).
Proof.
  revert k result.
  induction fuel as [|fuel IH]; intros k result.
  - rewrite Nat.min_0_l, Nat.add_0_r. simpl. now rewrite app_nil_r.
  - rewrite loop_S.
    destruct (Z.ltb_spec (Z.of_nat k) (months params)) as [Hlt|Hge].
    + replace (Z.of_nat k + 1)%Z with (Z.of_nat (S k)) by lia.
      change (fst (body Math_sin params (Z.of_nat k) (state_after k)))
        with (state_after (S k)).
      change (snd (body Math_sin params (Z.of_nat k) (state_after k)))
        with (snapshot_at k).
      rewrite IH.
      assert (Hrem : remaining k = S (remaining (S k)))
        by (unfold remaining; lia).
      rewrite Hrem, <- Nat.succ_min_distr.
      simpl seq. simpl map. rewrite <- app_assoc, Nat.add_succ_r.
      reflexivity.
    + assert (Hrem : remaining k = O) by (unfold remaining; lia).
      rewrite Hrem, Nat.min_0_r, Nat.add_0_r. simpl. now rewrite app_nil_r.
Qed.

Lemma loop_from_start (fuel : nat) :
  loop Math_sin params fuel 0%Z initial []
  = (state_after (Nat.min fuel (Z.to_nat (months params))),
     map snapshot_at (seq 0 (Nat.min fuel (Z.to_nat (months params))))).
Proof.
  pose proof (loop_unroll fuel 0 []) as H.
  unfold remaining in H. simpl in H. rewrite Z.sub_0_r in H. exact H.
Qed.

(** [simulate] returns the snapshots of months [0 .. months-1], in order. *)
Lemma simulate_unroll :
  simulate Math_sin params
  = map snapshot_at (seq 0 (Z.to_nat (months params))).
Proof.
  unfold simulate. now rewrite loop_from_start, Nat.min_id.
Qed.

(** More fuel than [months] changes nothing: the guard ends the loop. *)
Lemma simulate_fuel_enough (fuel : nat) :
  Z.to_nat (months params) <= fuel ->
  snd (loop Math_sin params fuel 0%Z initial []) = simulate Math_sin params.
Proof.
  intros Hfuel. rewrite simulate_unroll, loop_from_start.
  now rewrite Nat.min_r.
Qed.

Lemma simulate_length :
  length (simulate Math_sin params) = Z.to_nat (months params).
Proof. now rewrite simulate_unroll, length_map, length_seq. Qed.

Lemma simulate_lookup (i : nat) :
  (Z.of_nat i < months params)%Z ->
  simulate Math_sin params !! i = Some (snapshot_at i).
Proof.
  intros Hi. rewrite simulate_unroll, list_lookup_fmap.
  rewrite lookup_seq_lt by lia. reflexivity.
Qed.

Lemma simulate_lookup_inv (i : nat) (point : TimePoint) :
  simulate Math_sin params !! i = Some point ->
  (Z.of_nat i < months params)%Z /\ point = snapshot_at i.
Proof.
  intros Hi.
  assert (Hlt : i < Z.to_nat (months params)).
  { rewrite <- simulate_length. eapply lookup_lt_Some, Hi. }
  assert (Hz : (Z.of_nat i < months params)%Z) by lia.
  rewrite (simulate_lookup i Hz) in Hi. split; [exact Hz | congruence].
Qed.

End Trajectory.

(** ** The engine against the recurrence of the specification *)

Section EngineFacts.

Variable Math_sin : float -> float.
Variable params : ScenarioParams.

Lemma carried_after_state (n : nat) :
  carried_after Math_sin params n
  = state_after Math_sin params (Nat.min n (Z.to_nat (months params))).
Proof. unfold carried_after. now rewrite loop_from_start. Qed.

Lemma carried_after_within (n : nat) :
  (Z.of_nat n <= months params)%Z ->
  carried_after Math_sin params n = state_after Math_sin params n.
Proof.
  intros Hn. rewrite carried_after_state. f_equal. lia.
Qed.

(** The body adds births, subtracts deaths and adds migration, whatever the
    month. *)
Lemma body_population (t0 : Z) (st : Carried) :
  cur_population (fst (body Math_sin params t0 st))
  = cur_population st + Spec.births params (cur_population st)
    - Spec.deaths params (cur_population st) + Spec.migration params.
Proof. reflexivity. Qed.

Lemma state_after_population (n : nat) :
  cur_population (state_after Math_sin params n) = Spec.population params n.
Proof.
  induction n as [|n IH]; [reflexivity|].
  cbn [state_after Spec.population]. rewrite body_population, IH.
  reflexivity.
Qed.

Lemma snapshot_at_t (n : nat) : t (snapshot_at Math_sin params n) = Z.of_nat n.
Proof. reflexivity. Qed.

Lemma snapshot_at_population (n : nat) :
  population (snapshot_at Math_sin params n)
  = Math_round (Spec.population params (S n)).
Proof. rewrite <- state_after_population. reflexivity. Qed.

Lemma snapshot_at_migration (n : nat) :
  migration (snapshot_at Math_sin params n)
  = Math_round (Spec.migration params).
Proof. reflexivity. Qed.

(** The body adds the terms of the specification to employedShare one after
    the other, subtracts the retirement penalty and clamps. *)
Lemma body_employedShare (t0 : Z) (st : Carried) :
  cur_employedShare (fst (body Math_sin params t0 st))
  = Spec.clamp (Spec.unclamped Math_sin params t0 (cur_employedShare st)).
Proof.
  unfold Spec.unclamped, Spec.terms. cbn [fold_left].
  change (-0.01) with (opp 0.01). change (-0.02) with (opp 0.02).
  rewrite <- !sub_mul_neg. reflexivity.
Qed.

Lemma state_after_employedShare (n : nat) :
  cur_employedShare (state_after Math_sin params n)
  = Spec.employedShare Math_sin params n.
Proof.
  induction n as [|n IH]; [reflexivity|].
  cbn [state_after Spec.employedShare]. rewrite body_employedShare, IH.
  reflexivity.
Qed.

Lemma snapshot_at_employed (n : nat) :
  employed (snapshot_at Math_sin params n)
  = Math_round (cur_population (state_after Math_sin params (S n))
                * cur_employedShare (state_after Math_sin params (S n))).
Proof. reflexivity. Qed.


End EngineFacts.

(** *** Bounds *)



(** Clamping neither produces nor removes a NaN. *)
Lemma clamp_isNaN (x : float) : isNaN (Spec.clamp x) = isNaN x.
Proof.
  unfold Spec.clamp. rewrite Math_max_isNaN, Math_min_isNaN. reflexivity.
Qed.


(** *** Structural identity *)










(** *** The projector *)

Lemma totalBase_totalWeight (cities : list City) :
  totalBase cities = Spec.totalWeight cities.
Proof.
  unfold totalBase, Spec.totalWeight. generalize 0.
  induction cities as [|c cities IH]; intros acc; [reflexivity|].
  simpl. apply IH.
Qed.

Lemma js_index_last {A : Type} (l : list A) (x : A) :
  js_index (l ++ [x]) (Z.of_nat (length (l ++ [x])) - 1) = Some x.
Proof.
  unfold js_index. rewrite length_app. simpl length.
  destruct (Z.ltb_spec (Z.of_nat (length l + 1) - 1) 0) as [H|H]; [lia|].
  apply list_lookup_middle. lia.
Qed.

Lemma js_index_previous {A : Type} (l : list A) (y x : A) :
  js_index (l ++ [y; x]) (Z.max 0 (Z.of_nat (length (l ++ [y; x])) - 2))
  = Some y.
Proof.
  unfold js_index. rewrite length_app. simpl length.
  destruct (Z.ltb_spec (Z.max 0 (Z.of_nat (length l + 2) - 2)) 0) as [H|H];
    [lia|].
  apply list_lookup_middle. lia.
Qed.

(** What [cityCollection] reads from a non-empty [data]. *)
Lemma cityCollection_last_two (cities : list City) (data : list TimePoint) :
  data <> [] ->
  exists last previous,
    Spec.last_two data = Some (last, previous)
    /\ cityCollection cities data
       = Some (map (Spec.attributes (totalBase cities) last previous)
                   cities).
Proof.
  intros Hne. destruct data as [|x l _] using rev_ind; [contradiction|].
  destruct l as [|y l _] using rev_ind.
  - exists x, x. split; reflexivity.
  - exists x, y. split.
    + unfold Spec.last_two. now rewrite !rev_unit.
    + unfold cityCollection. rewrite js_index_last.
      rewrite <- app_assoc. simpl app. rewrite js_index_previous.
      reflexivity.
Qed.

Lemma growth_zero (share e : float) :
  isFinite e = true -> isFinite share = true ->
  is_zero (Math_round (share * (e - e))) = true.
Proof.
  intros He Hs. apply Math_round_zero, mul_zero_r_finite; [exact Hs|].
  apply is_zero_spec. eexists. now apply sub_diag_finite.
Qed.

(** *** The overlay merge *)

Lemma merge_overlay_object (p o : gmap string JSValue) :
  merge_overlay p (JObject o)
  = Some (<["orgActions" := nullish (get o "orgActions") (get p "orgActions")]>
          (<["peopleActions" :=
               nullish (get o "peopleActions") (get p "peopleActions")]>
           (<["peopleProps" :=
                nullish (get o "peopleProps") (get p "peopleProps")]>
            (o ∪ p)))).
Proof. reflexivity. Qed.

(** ** The properties of the specification *)

(** C1.  In every month [i] below [months] the engine emits a snapshot, and
    the population it carries goes from its value [population] on entry to
    [population + births - deaths + migration], with births, deaths and
    migration as the specification defines them; it starts from 146,000,000.
    The snapshot holds the rounded population and the rounded migration,
    while the carried population stays unrounded. *)
Theorem population_update (Math_sin : float -> float) (params : ScenarioParams)
    (i : nat) :
  (Z.of_nat i < months params)%Z ->
  exists point,
    simulate Math_sin params !! i = Some point
    /\ cur_population (carried_after Math_sin params 0) = 146000000
    /\ cur_population (carried_after Math_sin params (S i))
       = (let population := cur_population (carried_after Math_sin params i) in
          population + Spec.births params population
          - Spec.deaths params population + Spec.migration params)
    /\ population point
       = Math_round (cur_population (carried_after Math_sin params (S i)))
    /\ migration point = Math_round (Spec.migration params).
Proof.
  intros Hi. exists (snapshot_at Math_sin params i).
  rewrite !carried_after_within by lia.
  split; [now apply simulate_lookup|].
  split; [reflexivity|].
  split; [apply body_population|].
  split; reflexivity.
Qed.

Lemma population_update_witness :
  (Z.of_nat 2 < months defaults)%Z
  /\ exists point,
       simulate sin_taylor defaults !! 2%nat = Some point
       /\ cur_population (carried_after sin_taylor defaults 0) = 146000000
       /\ cur_population (carried_after sin_taylor defaults 3)
          = (let population :=
               cur_population (carried_after sin_taylor defaults 2) in
             population + Spec.births defaults population
             - Spec.deaths defaults population + Spec.migration defaults)
       /\ population point
          = Math_round (cur_population (carried_after sin_taylor defaults 3))
       /\ migration point = Math_round (Spec.migration defaults).
Proof.
  split; [reflexivity|].
  apply (population_update sin_taylor defaults 2). reflexivity.
Defined.

(** C2.  In every month [i] below [months] the employedShare the engine
    carries goes from its value on entry to the clamp of: that value plus,
    one after the other, the seven terms of the specification
    ([Spec.terms]: the shock, 0.02(skills-0.5), 0.01(jobSearchProb-0.5),
    -0.01(quitProb-0.5), 0.01(hireRate-fireRate),
    0.003((wageIndex-1)+(hoursIndex-1)), -0.02(fatigue+illness-1.0)),
    minus max(0, 65-retireAge) * 0.002.  It starts from 0.60. *)
Theorem employedShare_update (Math_sin : float -> float)
    (params : ScenarioParams) (i : nat) :
  (Z.of_nat i < months params)%Z ->
  cur_employedShare (carried_after Math_sin params 0) = 0.60
  /\ cur_employedShare (carried_after Math_sin params (S i))
     = Spec.clamp
         (fold_left add (Spec.terms Math_sin params (Z.of_nat i))
            (cur_employedShare (carried_after Math_sin params i))
          - Math_max 0 (65 - retireAge (peopleActions params)) * 0.002).
Proof.
  intros Hi. rewrite !carried_after_within by lia.
  split; [reflexivity|].
  apply body_employedShare.
Qed.

Lemma employedShare_update_witness :
  (Z.of_nat 1 < months defaults)%Z
  /\ cur_employedShare (carried_after sin_taylor defaults 0) = 0.60
  /\ cur_employedShare (carried_after sin_taylor defaults 2)
     = Spec.clamp
         (fold_left add (Spec.terms sin_taylor defaults (Z.of_nat 1))
            (cur_employedShare (carried_after sin_taylor defaults 1))
          - Math_max 0 (65 - retireAge (peopleActions defaults)) * 0.002).
Proof.
  split; [reflexivity|].
  apply (employedShare_update sin_taylor defaults 1). reflexivity.
Defined.





(** C5.  On a non-empty snapshot sequence the projector returns one feature
    per city, in the order of the cities, with value = round(weight /
    totalWeight * last.employed) and growth = round(weight / totalWeight *
    (last.employed - previous.employed)), where totalWeight is the sum of
    the weights, last is the last snapshot and previous the one before it
    (the last one itself when there is no other). *)
Theorem projector_attributes (cities : list City) (data : list TimePoint) :
  data <> [] ->
  exists last previous features,
    Spec.last_two data = Some (last, previous)
    /\ cityCollection cities data = Some features
    /\ length features = length cities
    /\ map feature_name features = map name cities
    /\ features
       = map (Spec.attributes (Spec.totalWeight cities)
                last previous)
             cities.
Proof.
  intros Hne.
  destruct (cityCollection_last_two cities data Hne)
    as (last & previous & Hlast & Hcoll).
  exists last, previous. eexists. split; [exact Hlast|].
  rewrite <- totalBase_totalWeight.
  split; [exact Hcoll|].
  split; [now rewrite length_map|].
  split; [|reflexivity].
  rewrite map_map. reflexivity.
Qed.

Lemma projector_attributes_witness :
  simulate sin_taylor defaults <> []
  /\ exists last previous features,
       Spec.last_two (simulate sin_taylor defaults)
       = Some (last, previous)
       /\ cityCollection cities (simulate sin_taylor defaults) = Some features
       /\ length features = length cities
       /\ map feature_name features = map name cities
       /\ features
          = map (Spec.attributes (Spec.totalWeight cities)
                   last previous)
                cities.
Proof.
  assert (H : simulate sin_taylor defaults <> [])
    by (vm_compute; discriminate).
  split; [exact H|].
  exact (projector_attributes cities (simulate sin_taylor defaults) H).
Defined.

(** C6, as stated, fails in two ways.  When the weights sum to zero, the
    share [weight / totalWeight] is [0 / 0], NaN, and so is the growth.
    When the single snapshot's employed is infinite (as [simulate] returns
    it for an infinite net migration), [last.employed - prev.employed] is
    [inf - inf], NaN, and so is the growth of every built-in city. *)
Lemma single_snapshot_growth_counterexample :
  (exists feature,
     cityCollection weightless [ordinary_point] = Some [feature]
     /\ isNaN (growth feature) = true
     /\ is_zero (growth feature) = false)
  /\ (exists point features,
        simulate sin_taylor infinite_migration = [point]
        /\ cityCollection cities [point] = Some features
        /\ Forall (fun feature => isNaN (growth feature) = true
                                  /\ is_zero (growth feature) = false)
                  features).
Proof.
  split.
  - eexists. split; [vm_compute; reflexivity|].
    split; vm_compute; reflexivity.
  - eexists. eexists. split; [vm_compute; reflexivity|].
    split; [vm_compute; reflexivity|].
    repeat constructor.
Qed.

(** C6 (amended).  On a one-element snapshot sequence the projector takes
    that snapshot both as last and as previous, and returns one feature per
    city whose growth is zero ([+0] or [-0]), provided the snapshot's
    employed is finite and the share [weight / totalWeight] of every city
    is finite. *)
Theorem single_snapshot_zero_growth (cities : list City) (point : TimePoint) :
  isFinite (employed point) = true ->
  Forall (fun c => isFinite (pop c / totalBase cities) = true) cities ->
  exists features,
    Spec.last_two [point] = Some (point, point)
    /\ cityCollection cities [point] = Some features
    /\ length features = length cities
    /\ Forall (fun feature => is_zero (growth feature) = true) features.
Proof.
  intros He Hshares. eexists.
  split; [reflexivity|].
  split; [reflexivity|].
  split; [now rewrite length_map|].
  apply List.Forall_map. 
  eapply List.Forall_impl; [|exact Hshares].
  intros c Hc. cbn [growth]. now apply growth_zero.
Qed.

Lemma single_snapshot_zero_growth_witness :
  isFinite (employed ordinary_point) = true
  /\ Forall (fun c => isFinite (pop c / totalBase cities) = true) cities
  /\ exists features,
       Spec.last_two [ordinary_point]
       = Some (ordinary_point, ordinary_point)
       /\ cityCollection cities [ordinary_point] = Some features
       /\ length features = length cities
       /\ Forall (fun feature => is_zero (growth feature) = true) features.
Proof.
  assert (H : Forall (fun c => isFinite (pop c / totalBase cities) = true)
                     cities)
    by (repeat constructor).
  split; [reflexivity|]. split; [exact H|].
  exact (single_snapshot_zero_growth cities ordinary_point eq_refl H).
Defined.

(** With the built-in cities, the first snapshot of the default run has
    zero growth everywhere. *)
Example default_first_snapshot_growth :
  (fun features => map growth <$> features)
    (cityCollection cities (firstn 1 (simulate sin_taylor defaults)))
  = Some (map (fun _ => 0) cities).
Proof. vm_compute. reflexivity. Qed.

(** C7, as stated, fails: the overlay [skills_only] provides [peopleProps]
    without [fatigue]; the in-memory [peopleProps.fatigue] is 0.3, and after
    the merge it is [undefined], because the sub-object of the overlay
    replaces the one in memory as a whole. *)
Lemma merge_overlay_counterexample :
  exists merged,
    merge_overlay (object_of_params defaults) skills_only = Some merged
    /\ field (object_of_params defaults) "peopleProps" "fatigue" = JNumber 0.3
    /\ field merged "peopleProps" "skills" = JNumber 0.9
    /\ field merged "peopleProps" "fatigue" = JUndefined.
Proof.
  eexists. split; [reflexivity|].
  repeat split; vm_compute; reflexivity.
Qed.

(** C7 (amended).  Merging an overlay object into the in-memory parameters
    is shallow: a top-level field other than the three groups takes the
    overlay's value when the overlay has the field, and keeps the in-memory
    value otherwise; each of [peopleProps], [peopleActions], [orgActions]
    takes the overlay's value as a whole when the overlay provides one that
    is not [null], and keeps the in-memory sub-object otherwise.  So a field
    missing inside a sub-object that the overlay provides is [undefined]
    after the merge, and the fields of a sub-object the overlay lacks keep
    their in-memory values. *)
Theorem merge_overlay_shallow (p o : gmap string JSValue) :
  exists merged,
    merge_overlay p (JObject o) = Some merged
    /\ (forall k, k ∉ groups ->
          merged !! k = match o !! k with Some v => Some v | None => p !! k end)
    /\ (forall g, g ∈ groups ->
          get merged g = nullish (get o g) (get p g))
    /\ (forall g sub f, g ∈ groups -> get o g = JObject sub ->
          field merged g f = get sub f)
    /\ (forall g f, g ∈ groups -> nullish (get o g) JNull = JNull ->
          field merged g f = field p g f).
Proof.
  eexists. split; [apply merge_overlay_object|].
  assert (Hg : forall g, g ∈ groups ->
            get (<["orgActions" :=
                     nullish (get o "orgActions") (get p "orgActions")]>
                 (<["peopleActions" :=
                      nullish (get o "peopleActions") (get p "peopleActions")]>
                  (<["peopleProps" :=
                       nullish (get o "peopleProps") (get p "peopleProps")]>
                   (o ∪ p)))) g
            = nullish (get o g) (get p g)).
  { intros g Hin. unfold groups in Hin. unfold get at 1.
    repeat (apply elem_of_cons in Hin as [-> | Hin]);
      [| | |now apply elem_of_nil in Hin].
    - rewrite lookup_insert_ne by done. rewrite lookup_insert_ne by done.
      now rewrite lookup_insert_eq.
    - rewrite lookup_insert_ne by done. now rewrite lookup_insert_eq.
    - now rewrite lookup_insert_eq. }
  split; [|split; [exact Hg|split]].
  - intros k Hk. unfold groups in Hk.
    apply not_elem_of_cons in Hk as [H1 Hk].
    apply not_elem_of_cons in Hk as [H2 Hk].
    apply not_elem_of_cons in Hk as [H3 _].
    rewrite !lookup_insert_ne by done.
    rewrite lookup_union. destruct (o !! k), (p !! k); reflexivity.
  - intros g sub f Hin Hsub. unfold field. rewrite (Hg g Hin), Hsub.
    reflexivity.
  - intros g f Hin Hnull. unfold field. rewrite (Hg g Hin).
    destruct (get o g); try discriminate; reflexivity.
Qed.



(** C9.  Every snapshot of a run carries the same migration value: the
    rounded [migrationNet / 12 * (1 + (migrateProb - 0.5) * 0.5 +
    (wageIndex - 1) * 0.3)], in which neither the month, nor the
    population, nor employedShare occurs. *)
Theorem migration_constant (Math_sin : float -> float)
    (params : ScenarioParams) :
  Forall
    (fun point =>
       migration point
       = Math_round
           (migrationNet params / 12
            * (1 + (migrateProb (peopleActions params) - 0.5) * 0.5
               + (wageIndex (orgActions params) - 1) * 0.3)))
    (simulate Math_sin params).
Proof.
  rewrite simulate_unroll. apply List.Forall_forall.
  intros point Hin. apply List.in_map_iff in Hin as [n [<- _]].
  reflexivity.
Qed.

(** C10.  The [t] fields of the returned sequence are 0, 1, 2, ... in this
    order: the [i]-th snapshot has [t = i]. *)
Theorem snapshot_months_in_order (Math_sin : float -> float)
    (params : ScenarioParams) :
  map t (simulate Math_sin params)
  = map Z.of_nat (seq 0 (length (simulate Math_sin params))).
Proof.
  rewrite simulate_length, simulate_unroll, map_map.
  apply map_ext. intros n. reflexivity.
Qed.

(** ** The default run *)

(** The single snapshot of the default parameters over one month:
    146,000,000 + births - deaths + migration, rounded. *)
Example first_snapshot_default :
  simulate sin_taylor (defaults_for 1)
  = [ {| t := 0; population := 145973754; employed := 89627885;
         unemployed := 9634268; migration := 10625 |} ].
Proof. vm_compute. reflexivity. Qed.

Example zero_horizon : simulate sin_taylor (defaults_for 0) = [].
Proof. reflexivity. Qed.

Example negative_horizon : simulate sin_taylor (defaults_for (-3)) = [].
Proof. reflexivity. Qed.

(** Over the 36 default months no NaN arises: the clamped share stays in
    [0.45, 0.70] and unemployed stays at or above 0. *)
Example default_run_in_bounds :
  forallb
    (fun n =>
       let share := cur_employedShare (carried_after sin_taylor defaults n) in
       negb (isNaN share) && (0.45 <=? share) && (share <=? 0.7))
    (seq 0 37)
  = true
  /\ forallb (fun point => 0 <=? unemployed point)
             (simulate sin_taylor defaults)
     = true.
Proof. split; vm_compute; reflexivity. Qed.

(** ** What the engine reads, and what it does not *)

Lemma state_after_ext (sin1 sin2 : float -> float)
    (params1 params2 : ScenarioParams) :
  (forall t0 st, body sin1 params1 t0 st = body sin2 params2 t0 st) ->
  forall n, state_after sin1 params1 n = state_after sin2 params2 n.
Proof.
  intros Hbody n. induction n as [|n IH]; [reflexivity|].
  cbn [state_after]. now rewrite IH, Hbody.
Qed.

Lemma simulate_ext (sin1 sin2 : float -> float)
    (params1 params2 : ScenarioParams) :
  months params1 = months params2 ->
  (forall t0 st, body sin1 params1 t0 st = body sin2 params2 t0 st) ->
  simulate sin1 params1 = simulate sin2 params2.
Proof.
  intros Hm Hbody. rewrite !simulate_unroll, Hm.
  apply map_ext. intros n. unfold snapshot_at.
  now rewrite (state_after_ext sin1 sin2 params1 params2 Hbody n), Hbody.
Qed.

(** X1.  Eleven of the parameters that have a slider are never read by
    [simulate]: careerOrientation, openness, stress, memory, socialNorms,
    incomeThousand, savingsThousand, hireProb, trainingRate, educationRate
    and meetRate.  Whatever values they take, the run is the same. *)
Theorem simulate_ignores_unread (Math_sin : float -> float)
    (params : ScenarioParams) (props : PeopleProperties)
    (actions : PeopleActions) :
  simulate Math_sin (with_unread params props actions)
  = simulate Math_sin params.
Proof.
  apply simulate_ext; [reflexivity|]. intros t0 st. reflexivity.
Qed.

(** X2.  A run over a shorter horizon is the beginning of the run over a
    longer one: the first [m] snapshots of a run are the run whose horizon
    is [m], cut at the run's own horizon. *)
Theorem simulate_prefix (Math_sin : float -> float) (params : ScenarioParams)
    (m : Z) :
  take (Z.to_nat m) (simulate Math_sin params)
  = simulate Math_sin (with_months params (Z.min m (months params))).
Proof.
  rewrite !simulate_unroll. cbn [months with_months].
  rewrite firstn_map. change (@firstn) with (@take). rewrite take_seq.
  replace (Nat.min (Z.to_nat m) (Z.to_nat (months params)))
    with (Z.to_nat (Z.min m (months params))) by lia.
  apply map_ext. intros n. unfold snapshot_at.
  now rewrite (state_after_ext Math_sin Math_sin
                 (with_months params (Z.min m (months params))) params).
Qed.

Lemma Spec_population_employment (params other : ScenarioParams) (n : nat) :
  Spec.population (with_employment_inputs params other) n
  = Spec.population params n.
Proof.
  induction n as [|n IH]; [reflexivity|].
  cbn [Spec.population]. rewrite IH. reflexivity.
Qed.

(** X3.  The population and migration columns of a run depend neither on
    [Math.sin] nor on the inputs of the employment side (employmentShock,
    skills, fatigue, jobSearchProb, quitProb, retireAge, hireRate, fireRate,
    hoursIndex): changing those changes the employed and unemployed columns
    only. *)
Theorem population_ignores_employment (sin1 sin2 : float -> float)
    (params other : ScenarioParams) :
  map population (simulate sin1 (with_employment_inputs params other))
  = map population (simulate sin2 params)
  /\ map migration (simulate sin1 (with_employment_inputs params other))
     = map migration (simulate sin2 params)
  /\ map t (simulate sin1 (with_employment_inputs params other))
     = map t (simulate sin2 params).
Proof.
  rewrite !simulate_unroll, !map_map. cbn [months with_employment_inputs].
  split; [|split]; apply map_ext; intros n.
  - rewrite !snapshot_at_population. now rewrite Spec_population_employment.
  - rewrite !snapshot_at_migration. reflexivity.
  - rewrite !snapshot_at_t. reflexivity.
Qed.

(** *** NaN, once there, stays *)

Lemma isNaN_eq (x : float) : isNaN x = true -> x = nan.
Proof.
  unfold isNaN. intros H. apply Prim2SF_inj.
  destruct (Prim2SF x); try discriminate. reflexivity.
Qed.

Lemma add_nan_l (y : float) : nan + y = nan.
Proof. apply Prim2SF_inj. rewrite add_spec. reflexivity. Qed.

Lemma sub_nan_l (y : float) : nan - y = nan.
Proof. apply Prim2SF_inj. rewrite sub_spec. reflexivity. Qed.

Lemma sub_nan_r (x : float) : x - nan = nan.
Proof.
  apply Prim2SF_inj. rewrite sub_spec. change (Prim2SF nan) with S754_nan.
  now destruct (Prim2SF x).
Qed.

Lemma mul_nan_l (y : float) : nan * y = nan.
Proof. apply Prim2SF_inj. rewrite mul_spec. reflexivity. Qed.

Lemma mul_nan_r (x : float) : x * nan = nan.
Proof.
  apply Prim2SF_inj. rewrite mul_spec. change (Prim2SF nan) with S754_nan.
  now destruct (Prim2SF x).
Qed.

Lemma Math_max_nan_r (x : float) : Math_max x nan = nan.
Proof. unfold Math_max. now rewrite orb_true_r. Qed.

Lemma fold_left_add_nan (l : list float) : fold_left add l nan = nan.
Proof.
  induction l as [|y l IH]; [reflexivity|].
  cbn [fold_left]. now rewrite add_nan_l.
Qed.

Lemma clamp_nan : Spec.clamp nan = nan.
Proof. reflexivity. Qed.

(** With a NaN employedShare on entry, the body leaves a NaN employedShare
    and pushes NaN for employed and unemployed. *)
Lemma body_share_nan (Math_sin : float -> float) (params : ScenarioParams)
    (t0 : Z) (st : Carried) :
  cur_employedShare st = nan ->
  cur_employedShare (fst (body Math_sin params t0 st)) = nan
  /\ employed (snd (body Math_sin params t0 st)) = nan
  /\ unemployed (snd (body Math_sin params t0 st)) = nan.
Proof.
  intros Hst.
  assert (Hshare : cur_employedShare (fst (body Math_sin params t0 st)) = nan).
  { rewrite body_employedShare, Hst. unfold Spec.unclamped.
    now rewrite fold_left_add_nan, sub_nan_l. }
  split; [exact Hshare|].
  change (employed (snd (body Math_sin params t0 st)))
    with (Math_round
            (cur_population (fst (body Math_sin params t0 st))
             * cur_employedShare (fst (body Math_sin params t0 st)))).
  change (unemployed (snd (body Math_sin params t0 st)))
    with (Math_round
            (Math_max 0
               (cur_population (fst (body Math_sin params t0 st)) * 0.68
                - cur_population (fst (body Math_sin params t0 st))
                  * cur_employedShare (fst (body Math_sin params t0 st))))).
  rewrite Hshare, mul_nan_r, sub_nan_r, Math_max_nan_r. split; reflexivity.
Qed.

Lemma state_after_share_nan (Math_sin : float -> float)
    (params : ScenarioParams) (n k : nat) :
  cur_employedShare (state_after Math_sin params n) = nan ->
  cur_employedShare (state_after Math_sin params (n + k)) = nan.
Proof.
  intros Hn. induction k as [|k IH].
  - now rewrite Nat.add_0_r.
  - rewrite Nat.add_succ_r. cbn [state_after].
    now apply body_share_nan.
Qed.

(** X4.  NaN is absorbing for employedShare: if the carried employedShare
    is NaN after [n] months, then every later month [i] of the run leaves it
    NaN and emits a snapshot whose employed and unemployed are NaN.  The
    clamp does not bring the share back into [0.45, 0.70]. *)
Theorem employedShare_nan_persists (Math_sin : float -> float)
    (params : ScenarioParams) (n i : nat) :
  isNaN (cur_employedShare (carried_after Math_sin params n)) = true ->
  n <= i ->
  (Z.of_nat i < months params)%Z ->
  exists point,
    simulate Math_sin params !! i = Some point
    /\ isNaN (employed point) = true
    /\ isNaN (unemployed point) = true
    /\ isNaN (cur_employedShare (carried_after Math_sin params (S i))) = true.
Proof.
  intros Hnan Hni Hi.
  rewrite carried_after_within in Hnan by lia.
  rewrite carried_after_within by lia.
  apply isNaN_eq in Hnan.
  assert (Hst : cur_employedShare (state_after Math_sin params i) = nan).
  { replace i with (n + (i - n))%nat by lia.
    now apply state_after_share_nan. }
  destruct (body_share_nan Math_sin params (Z.of_nat i)
              (state_after Math_sin params i) Hst) as (Hs & He & Hu).
  exists (snapshot_at Math_sin params i).
  split; [now apply simulate_lookup|].
  unfold snapshot_at. cbn [state_after]. now rewrite He, Hu, Hs.
Qed.

Lemma employedShare_nan_persists_witness :
  isNaN (cur_employedShare
           (carried_after sin_taylor
              (with_months infinite_skills_and_fatigue 3) 1)) = true
  /\ 1 <= 2
  /\ (Z.of_nat 2 < months (with_months infinite_skills_and_fatigue 3))%Z
  /\ exists point,
       simulate sin_taylor (with_months infinite_skills_and_fatigue 3) !! 2%nat
       = Some point
       /\ isNaN (employed point) = true
       /\ isNaN (unemployed point) = true
       /\ isNaN (cur_employedShare
                   (carried_after sin_taylor
                      (with_months infinite_skills_and_fatigue 3) 3)) = true.
Proof.
  split; [vm_compute; reflexivity|]. split; [lia|]. split; [reflexivity|].
  apply (employedShare_nan_persists sin_taylor
           (with_months infinite_skills_and_fatigue 3) 1 2);
    [vm_compute; reflexivity|lia|reflexivity].
Defined.

Lemma add_nan_r (x : float) : x + nan = nan.
Proof.
  apply Prim2SF_inj. rewrite add_spec. change (Prim2SF nan) with S754_nan.
  now destruct (Prim2SF x).
Qed.

(** With a NaN population on entry, the body leaves a NaN population and
    pushes NaN for population, employed and unemployed. *)
Lemma body_population_nan (Math_sin : float -> float) (params : ScenarioParams)
    (t0 : Z) (st : Carried) :
  cur_population st = nan ->
  cur_population (fst (body Math_sin params t0 st)) = nan
  /\ population (snd (body Math_sin params t0 st)) = nan
  /\ employed (snd (body Math_sin params t0 st)) = nan
  /\ unemployed (snd (body Math_sin params t0 st)) = nan.
Proof.
  intros Hst.
  assert (Hpop : cur_population (fst (body Math_sin params t0 st)) = nan).
  { rewrite body_population, Hst.
    now rewrite add_nan_l, sub_nan_l, add_nan_l. }
  split; [exact Hpop|].
  change (population (snd (body Math_sin params t0 st)))
    with (Math_round (cur_population (fst (body Math_sin params t0 st)))).
  change (employed (snd (body Math_sin params t0 st)))
    with (Math_round
            (cur_population (fst (body Math_sin params t0 st))
             * cur_employedShare (fst (body Math_sin params t0 st)))).
  change (unemployed (snd (body Math_sin params t0 st)))
    with (Math_round
            (Math_max 0
               (cur_population (fst (body Math_sin params t0 st)) * 0.68
                - cur_population (fst (body Math_sin params t0 st))
                  * cur_employedShare (fst (body Math_sin params t0 st))))).
  rewrite Hpop, !mul_nan_l, sub_nan_l, Math_max_nan_r. repeat split.
Qed.

Lemma state_after_population_nan (Math_sin : float -> float)
    (params : ScenarioParams) (n k : nat) :
  cur_population (state_after Math_sin params n) = nan ->
  cur_population (state_after Math_sin params (n + k)) = nan.
Proof.
  intros Hn. induction k as [|k IH].
  - now rewrite Nat.add_0_r.
  - rewrite Nat.add_succ_r. cbn [state_after].
    now apply body_population_nan.
Qed.

(** X5.  NaN is absorbing for the population: if the carried population is
    NaN after [n] months, then every later month [i] of the run emits a
    snapshot whose population, employed and unemployed are NaN: nothing
    resets the population. *)
Theorem population_nan_persists (Math_sin : float -> float)
    (params : ScenarioParams) (n i : nat) :
  isNaN (cur_population (carried_after Math_sin params n)) = true ->
  n <= i ->
  (Z.of_nat i < months params)%Z ->
  exists point,
    simulate Math_sin params !! i = Some point
    /\ isNaN (population point) = true
    /\ isNaN (employed point) = true
    /\ isNaN (unemployed point) = true.
Proof.
  intros Hnan Hni Hi.
  rewrite carried_after_within in Hnan by lia.
  apply isNaN_eq in Hnan.
  assert (Hst : cur_population (state_after Math_sin params i) = nan).
  { replace i with (n + (i - n))%nat by lia.
    now apply state_after_population_nan. }
  destruct (body_population_nan Math_sin params (Z.of_nat i)
              (state_after Math_sin params i) Hst) as (_ & Hp & He & Hu).
  exists (snapshot_at Math_sin params i).
  split; [now apply simulate_lookup|].
  unfold snapshot_at. now rewrite Hp, He, Hu.
Qed.

(** *** The clamp, case by case *)

Lemma ltb_asym (x y : float) : (x <? y) = true -> (y <? x) = false.
Proof.
  rewrite !FloatAxioms.ltb_spec. unfold SFltb.
  rewrite (SFcompare_antisym (Prim2SF x) (Prim2SF y)).
  now destruct (SFcompare (Prim2SF x) (Prim2SF y)) as [[]|].
Qed.

Lemma SFcompare_Eq_finite (f : spec_float) (s : bool) (m : positive) (e : Z) :
  SFcompare f (S754_finite s m e) = Some Eq -> f = S754_finite s m e.
Proof.
  destruct f as [s1|s1| |s1 m1 e1]; simpl;
    try (destruct s1; discriminate); try (destruct s; discriminate);
    try discriminate.
  destruct s1, s; try discriminate;
    destruct (Z.compare_spec e1 e) as [He|He|He]; try discriminate;
    intros H; injection H as H.
  - apply CompOpp_iff in H. simpl in H.
    apply Pos.compare_eq in H. now subst.
  - apply Pos.compare_eq in H. now subst.
Qed.

(** A number that is neither below nor above a finite non-zero double, and
    is not NaN, is that double. *)
Lemma not_ltb_eq (x c : float) (s : bool) (m : positive) (e : Z) :
  Prim2SF c = S754_finite s m e ->
  isNaN x = false -> (x <? c) = false -> (c <? x) = false -> x = c.
Proof.
  intros Hc Hx Hlt Hgt. apply Prim2SF_inj. rewrite Hc.
  apply SFcompare_Eq_finite. rewrite <- Hc.
  assert (HcN : isNaN c = false) by (unfold isNaN; now rewrite Hc).
  pose proof (isNaN_compare x c Hx HcN) as Hne.
  rewrite FloatAxioms.ltb_spec in Hlt, Hgt. unfold SFltb in Hlt, Hgt.
  rewrite (SFcompare_antisym (Prim2SF x) (Prim2SF c)) in Hgt.
  destruct (SFcompare (Prim2SF x) (Prim2SF c)) as [[]|];
    simpl in *; congruence.
Qed.

(** Above 0.7 is not below 0.45. *)
Lemma above_not_below (x : float) : (0.7 <? x) = true -> (x <? 0.45) = false.
Proof.
  rewrite !FloatAxioms.ltb_spec. unfold SFltb.
  change (Prim2SF 0.7) with (S754_finite false 6305039478318694 (-53)).
  change (Prim2SF 0.45) with (S754_finite false 8106479329266893 (-54)).
  generalize 6305039478318694%positive 8106479329266893%positive.
  intros m7 m45.
  destruct (Prim2SF x) as [s|s| |s m e]; cbn [SFcompare].
  - discriminate.
  - destruct s; [discriminate|reflexivity].
  - discriminate.
  - destruct s; [discriminate|].
    destruct (Z.compare_spec (-53) e) as [H1|H1|H1];
      destruct (Z.compare_spec e (-54)) as [H2|H2|H2];
      try reflexivity; try discriminate; lia.
Qed.

Lemma clamp_cases (x : float) :
  Spec.clamp x = if x <? 0.45 then 0.45 else if 0.7 <? x then 0.7 else x.
Proof.
  destruct (isNaN x) eqn:Hx.
  { apply isNaN_eq in Hx. subst x. reflexivity. }
  unfold Spec.clamp.
  destruct (0.7 <? x) eqn:H7.
  - rewrite (above_not_below x H7).
    unfold Math_min. rewrite Hx, H7. reflexivity.
  - assert (Hmin : Math_min 0.7 x = x).
    { unfold Math_min. rewrite Hx, H7. simpl. now destruct (x <? 0.7). }
    rewrite Hmin. unfold Math_max. rewrite Hx. simpl.
    destruct (0.45 <? x) eqn:H45.
    + now rewrite (ltb_asym 0.45 x H45).
    + destruct (x <? 0.45) eqn:Hx45; [reflexivity|].
      change (signbit 0.45) with false. cbv iota.
      symmetry. now apply (not_ltb_eq x 0.45 false 8106479329266893 (-54)).
Qed.

(** X6.  The clamp of line 89 saturates and otherwise does nothing: in
    every month the carried employedShare becomes 0.45 when the unclamped
    sum is below 0.45, 0.7 when it is above 0.7, and the unclamped sum
    itself otherwise (a NaN included). *)
Theorem employedShare_clamp_cases (Math_sin : float -> float)
    (params : ScenarioParams) (i : nat) :
  (Z.of_nat i < months params)%Z ->
  cur_employedShare (carried_after Math_sin params (S i))
  = (let sum :=
       Spec.unclamped Math_sin params (Z.of_nat i)
         (cur_employedShare (carried_after Math_sin params i)) in
     if sum <? 0.45 then 0.45 else if 0.7 <? sum then 0.7 else sum).
Proof.
  intros Hi. rewrite !carried_after_within by lia.
  cbn [state_after]. rewrite body_employedShare. apply clamp_cases.
Qed.

Lemma employedShare_clamp_cases_witness :
  (Z.of_nat 7 < months defaults)%Z
  /\ cur_employedShare (carried_after sin_taylor defaults 8)
     = (let sum :=
          Spec.unclamped sin_taylor defaults (Z.of_nat 7)
            (cur_employedShare (carried_after sin_taylor defaults 7)) in
        if sum <? 0.45 then 0.45 else if 0.7 <? sum then 0.7 else sum).
Proof.
  split; [reflexivity|].
  apply (employedShare_clamp_cases sin_taylor defaults 7). reflexivity.
Defined.

Lemma population_nan_persists_witness :
  isNaN (cur_population
           (carried_after sin_taylor (with_months infinite_migration 4) 2))
  = true
  /\ 2 <= 3
  /\ (Z.of_nat 3 < months (with_months infinite_migration 4))%Z
  /\ exists point,
       simulate sin_taylor (with_months infinite_migration 4) !! 3%nat
       = Some point
       /\ isNaN (population point) = true
       /\ isNaN (employed point) = true
       /\ isNaN (unemployed point) = true.
Proof.
  split; [vm_compute; reflexivity|]. split; [lia|]. split; [reflexivity|].
  apply (population_nan_persists sin_taylor
           (with_months infinite_migration 4) 2 3);
    [vm_compute; reflexivity|lia|reflexivity].
Defined.

(** ** More on the projector *)



(** X8.  Only the last two snapshots reach the projection: whatever comes
    before them in [data] changes nothing. *)
Theorem projection_reads_last_two (cities : list City)
    (older : list TimePoint) (previous last : TimePoint) :
  cityCollection cities (older ++ [previous; last])
  = cityCollection cities [previous; last].
Proof.
  unfold cityCollection.
  replace (older ++ [previous; last]) with ((older ++ [previous]) ++ [last])
    by now rewrite <- app_assoc.
  rewrite js_index_last.
  rewrite <- app_assoc. simpl app.
  rewrite js_index_previous. reflexivity.
Qed.

(** ** More on the overlay merge *)

Lemma merge_overlay_None (p : gmap string JSValue) (json : JSValue) :
  merge_overlay p json = None -> json = JNull \/ json = JUndefined.
Proof. destruct json; try discriminate; auto. Qed.

(** X9.  The merge fails exactly on [null] (and [undefined]): reading
    [json.peopleProps] raises a [TypeError] there.  Every other document,
    object or not, is merged. *)
Theorem merge_overlay_fails_iff_null (p : gmap string JSValue)
    (json : JSValue) :
  merge_overlay p json = None <-> json = JNull \/ json = JUndefined.
Proof.
  split.
  - apply merge_overlay_None.
  - intros [-> | ->]; reflexivity.
Qed.

Lemma lookup_merge_overlay (p merged : gmap string JSValue) (json : JSValue)
    (k : string) :
  merge_overlay p json = Some merged ->
  exists props actions org,
    member json "peopleProps" = Some props
    /\ member json "peopleActions" = Some actions
    /\ member json "orgActions" = Some org
    /\ merged !! k
       = if decide (k = "orgActions")
         then Some (nullish org (get p "orgActions"))
         else if decide (k = "peopleActions")
         then Some (nullish actions (get p "peopleActions"))
         else if decide (k = "peopleProps")
         then Some (nullish props (get p "peopleProps"))
         else match spread json !! k with
              | Some v => Some v
              | None => p !! k
              end.
Proof.
  unfold merge_overlay.
  destruct (member json "peopleProps") as [props|]; [|discriminate].
  destruct (member json "peopleActions") as [actions|]; [|discriminate].
  destruct (member json "orgActions") as [org|]; [|discriminate].
  intros [= <-]. exists props, actions, org. repeat split.
  repeat case_decide; subst.
  - now rewrite lookup_insert_eq.
  - rewrite lookup_insert_ne by done. now rewrite lookup_insert_eq.
  - rewrite !lookup_insert_ne by done. now rewrite lookup_insert_eq.
  - rewrite !lookup_insert_ne by done. rewrite lookup_union.
    destruct (spread json !! k), (p !! k); reflexivity.
Qed.

Lemma nullish_idemp (a b : JSValue) : nullish a (nullish a b) = nullish a b.
Proof. now destruct a. Qed.

(** X10.  Merging the same document a second time changes nothing. *)
Theorem merge_overlay_idempotent (p merged : gmap string JSValue)
    (json : JSValue) :
  merge_overlay p json = Some merged ->
  merge_overlay merged json = Some merged.
Proof.
  intros Hm.
  destruct (merge_overlay merged json) as [again|] eqn:Ha.
  2:{ apply merge_overlay_None in Ha as [-> | ->]; discriminate. }
  f_equal. apply map_eq. intros k.
  destruct (lookup_merge_overlay p merged json k Hm)
    as (props & actions & org & Hp & Hact & Ho & Hk).
  destruct (lookup_merge_overlay merged again json k Ha)
    as (props' & actions' & org' & Hp' & Hact' & Ho' & Hk').
  rewrite Hp in Hp'. rewrite Hact in Hact'. rewrite Ho in Ho'.
  injection Hp' as <-. injection Hact' as <-. injection Ho' as <-.
  rewrite Hk', Hk.
  assert (Hget : forall g, get merged g = default JUndefined (merged !! g))
    by reflexivity.
  repeat case_decide; subst.
  - rewrite Hget.
    destruct (lookup_merge_overlay p merged json "orgActions" Hm)
      as (? & ? & org'' & _ & _ & Ho'' & ->).
    rewrite Ho in Ho''. injection Ho'' as <-.
    rewrite decide_True by done. simpl. now rewrite nullish_idemp.
  - rewrite Hget.
    destruct (lookup_merge_overlay p merged json "peopleActions" Hm)
      as (? & act'' & ? & _ & Hact'' & _ & ->).
    rewrite Hact in Hact''. injection Hact'' as <-.
    rewrite decide_False by done. rewrite decide_True by done.
    simpl. now rewrite nullish_idemp.
  - rewrite Hget.
    destruct (lookup_merge_overlay p merged json "peopleProps" Hm)
      as (pr'' & ? & ? & Hp'' & _ & _ & ->).
    rewrite Hp in Hp''. injection Hp'' as <-.
    rewrite decide_False by done. rewrite decide_False by done.
    rewrite decide_True by done. simpl. now rewrite nullish_idemp.
  - destruct (spread json !! k); reflexivity.
Qed.

Lemma merge_overlay_idempotent_witness :
  merge_overlay (object_of_params defaults) skills_only
  = Some (<["peopleProps" := JObject {[ "skills" := JNumber 0.9 ]}]>
          (object_of_params defaults))
  /\ merge_overlay
       (<["peopleProps" := JObject {[ "skills" := JNumber 0.9 ]}]>
        (object_of_params defaults)) skills_only
     = Some (<["peopleProps" := JObject {[ "skills" := JNumber 0.9 ]}]>
             (object_of_params defaults)).
Proof.
  assert (H : merge_overlay (object_of_params defaults) skills_only
              = Some (<["peopleProps" :=
                          JObject {[ "skills" := JNumber 0.9 ]}]>
                      (object_of_params defaults)))
    by (vm_compute; reflexivity).
  split; [exact H|].
  exact (merge_overlay_idempotent _ _ _ H).
Defined.

(** X11.  The merge never drops a parameter: the merged object has the
    properties of the current parameters, those the document spreads, and
    the three groups, and no other. *)
Theorem merge_overlay_keys (p merged : gmap string JSValue) (json : JSValue) :
  merge_overlay p json = Some merged ->
  dom merged
  = dom (spread json) ∪ dom p
    ∪ {[ "peopleProps"; "peopleActions"; "orgActions" ]}.
Proof.
  unfold merge_overlay.
  destruct (member json "peopleProps") as [props|]; [|discriminate].
  destruct (member json "peopleActions") as [actions|]; [|discriminate].
  destruct (member json "orgActions") as [org|]; [|discriminate].
  intros [= <-]. rewrite !dom_insert_L, dom_union_L.
  apply set_eq. intros k. rewrite !elem_of_union, !elem_of_singleton. tauto.
Qed.

Lemma merge_overlay_keys_witness :
  merge_overlay (object_of_params defaults) skills_only
  = Some (<["peopleProps" := JObject {[ "skills" := JNumber 0.9 ]}]>
          (object_of_params defaults))
  /\ dom (<["peopleProps" := JObject {[ "skills" := JNumber 0.9 ]}]>
          (object_of_params defaults))
     = dom (spread skills_only) ∪ dom (object_of_params defaults)
       ∪ {[ "peopleProps"; "peopleActions"; "orgActions" ]}.
Proof.
  assert (H : merge_overlay (object_of_params defaults) skills_only
              = Some (<["peopleProps" :=
                          JObject {[ "skills" := JNumber 0.9 ]}]>
                      (object_of_params defaults)))
    by (vm_compute; reflexivity).
  split; [exact H|].
  exact (merge_overlay_keys _ _ _ H).
Defined.

(** X12.  A document without own properties that is not [null] (the empty
    object, a number, a boolean, the empty string, the empty array) leaves
    the parameters as they are, when these have the three groups. *)
Theorem merge_overlay_nothing (p : gmap string JSValue) (json : JSValue) :
  spread json = ∅ ->
  json <> JNull -> json <> JUndefined ->
  (forall g, g ∈ groups -> is_Some (p !! g)) ->
  merge_overlay p json = Some p.
Proof.
  intros Hspread Hnull Hundef Hgroups.
  destruct (merge_overlay p json) as [merged|] eqn:Hm.
  2:{ apply merge_overlay_None in Hm as [-> | ->]; contradiction. }
  f_equal. apply map_eq. intros k.
  destruct (lookup_merge_overlay p merged json k Hm)
    as (props & actions & org & Hp & Hact & Ho & ->).
  assert (Hmember : forall g, member json g = Some JUndefined).
  { intros g. destruct json; try reflexivity; try contradiction.
    simpl in Hspread. subst props0. reflexivity. }
  rewrite Hmember in Hp, Hact, Ho.
  injection Hp as <-. injection Hact as <-. injection Ho as <-.
  assert (Hget : forall g, g ∈ groups -> Some (get p g) = p !! g).
  { intros g Hg. destruct (Hgroups g Hg) as [v Hv]. unfold get.
    now rewrite Hv. }
  repeat case_decide; subst; simpl.
  - apply Hget. unfold groups. repeat constructor.
  - apply Hget. unfold groups. repeat constructor.
  - apply Hget. unfold groups. repeat constructor.
  - now rewrite Hspread, lookup_empty.
Qed.

Lemma merge_overlay_nothing_witness :
  spread (JObject ∅) = ∅
  /\ JObject ∅ <> JNull /\ JObject ∅ <> JUndefined
  /\ (forall g, g ∈ groups -> is_Some (object_of_params defaults !! g))
  /\ merge_overlay (object_of_params defaults) (JObject ∅)
     = Some (object_of_params defaults).
Proof.
  assert (H : forall g, g ∈ groups ->
                        is_Some (object_of_params defaults !! g)).
  { intros g Hg. unfold groups in Hg.
    repeat (apply elem_of_cons in Hg as [-> | Hg]);
      [| | |now apply elem_of_nil in Hg]; vm_compute; eauto. }
  split; [reflexivity|]. split; [discriminate|]. split; [discriminate|].
  split; [exact H|].
  apply (merge_overlay_nothing (object_of_params defaults) (JObject ∅));
    [reflexivity|discriminate|discriminate|exact H].
Defined.

(** ** Saving, then loading *)

Lemma JSON_clone_number (x : float) :
  serialisable_number x = true -> JSON_clone (JNumber x) = Some (JNumber x).
Proof.
  unfold serialisable_number. intros [Hfin Hz]%andb_prop.
  cbn [JSON_clone]. rewrite Hfin.
  destruct (is_zero x) eqn:Hzero; [|reflexivity].
  simpl in Hz. apply negb_true_iff in Hz.
  do 2 f_equal. apply Prim2SF_inj.
  apply is_zero_spec in Hzero as [s Hs].
  unfold signbit in Hz. rewrite Hs in Hz. subst s. now rewrite Hs.
Qed.

Ltac split_serialisable H :=
  repeat match goal with
         | E : (_ && _) = true |- _ => apply andb_prop in E; destruct E
         end;
  repeat match goal with
         | E : serialisable_number _ = true |- _ =>
             apply JSON_clone_number in E
         end.

Ltac clone_object :=
  rewrite ?list_to_map_cons, ?list_to_map_nil;
  repeat (erewrite omap_insert_Some by eassumption);
  rewrite omap_empty; reflexivity.

Lemma JSON_clone_PeopleProperties (x : PeopleProperties) :
  serialisable_PeopleProperties x = true ->
  JSON_clone (object_of_PeopleProperties x)
  = Some (object_of_PeopleProperties x).
Proof.
  unfold serialisable_PeopleProperties. intros H. split_serialisable H.
  unfold object_of_PeopleProperties. cbn [JSON_clone]. do 2 f_equal.
  clone_object.
Qed.

Lemma JSON_clone_PeopleActions (x : PeopleActions) :
  serialisable_PeopleActions x = true ->
  JSON_clone (object_of_PeopleActions x) = Some (object_of_PeopleActions x).
Proof.
  unfold serialisable_PeopleActions. intros H. split_serialisable H.
  unfold object_of_PeopleActions. cbn [JSON_clone]. do 2 f_equal.
  clone_object.
Qed.

Lemma JSON_clone_OrgActions (x : OrgActions) :
  serialisable_OrgActions x = true ->
  JSON_clone (object_of_OrgActions x) = Some (object_of_OrgActions x).
Proof.
  unfold serialisable_OrgActions. intros H. split_serialisable H.
  unfold object_of_OrgActions. cbn [JSON_clone]. do 2 f_equal.
  clone_object.
Qed.

(** Saving a serialisable parameter set stores it as it is. *)
Lemma save_object_of_params (x : ScenarioParams) :
  serialisable_params x = true ->
  save (object_of_params x) = Some (JObject (object_of_params x)).
Proof.
  unfold serialisable_params. intros H. split_serialisable H.
  repeat match goal with
         | E : serialisable_PeopleProperties _ = true |- _ =>
             apply JSON_clone_PeopleProperties in E
         | E : serialisable_PeopleActions _ = true |- _ =>
             apply JSON_clone_PeopleActions in E
         | E : serialisable_OrgActions _ = true |- _ =>
             apply JSON_clone_OrgActions in E
         end.
  unfold save, object_of_params. cbn [JSON_clone]. do 2 f_equal.
  clone_object.
Qed.

Lemma lookup_object_of_params_groups (x : ScenarioParams) :
  object_of_params x !! "peopleProps"
  = Some (object_of_PeopleProperties (peopleProps x))
  /\ object_of_params x !! "peopleActions"
     = Some (object_of_PeopleActions (peopleActions x))
  /\ object_of_params x !! "orgActions"
     = Some (object_of_OrgActions (orgActions x)).
Proof. repeat split. Qed.

Lemma dom_object_of_params (x y : ScenarioParams) :
  dom (object_of_params x) = dom (object_of_params y).
Proof.
  unfold object_of_params. rewrite !dom_list_to_map_L. reflexivity.
Qed.

(** X13.  Saving a parameter set and loading it back restores it field for
    field, whatever the current parameters are at the time of loading,
    provided every number of the saved set is finite and not [-0]. *)
Theorem save_load_restores (saved current : ScenarioParams) :
  serialisable_params saved = true ->
  load (save (object_of_params saved)) (object_of_params current)
  = Some (object_of_params saved).
Proof.
  intros Hser. rewrite (save_object_of_params saved Hser). unfold load.
  destruct (merge_overlay (object_of_params current)
              (JObject (object_of_params saved))) as [merged|] eqn:Hm;
    [|discriminate].
  f_equal. apply map_eq. intros k.
  destruct (lookup_merge_overlay _ _ _ k Hm)
    as (props & actions & org & Hp & Hact & Ho & ->).
  destruct (lookup_object_of_params_groups saved) as (Hsp & Hsa & Hso).
  cbn [member] in Hp, Hact, Ho. unfold get in Hp, Hact, Ho.
  rewrite Hsp in Hp. rewrite Hsa in Hact. rewrite Hso in Ho.
  injection Hp as <-. injection Hact as <-. injection Ho as <-.
  repeat case_decide; subst; try (symmetry; assumption).
  cbn [spread].
  destruct (object_of_params saved !! k) eqn:Hk; [reflexivity|].
  apply not_elem_of_dom. rewrite (dom_object_of_params current saved).
  now apply not_elem_of_dom.
Qed.

Lemma save_load_restores_witness :
  serialisable_params defaults = true
  /\ load (save (object_of_params defaults))
       (object_of_params infinite_migration)
     = Some (object_of_params defaults).
Proof.
  split; [reflexivity|].
  apply (save_load_restores defaults infinite_migration). reflexivity.
Defined.

(** A number that is not finite does not come back: a saved infinite net
    migration is loaded as [null]. *)
Example save_load_infinite :
  load (save (object_of_params infinite_migration)) (object_of_params defaults)
  ≫= (.!! "migrationNet")
  = Some JNull.
Proof. vm_compute. reflexivity. Qed.

(** ** The CSV export, read back *)

Lemma split_on_nonempty (c : Ascii.ascii) (s : string) : split_on c s <> [].
Proof.
  destruct s as [|a s]; simpl; [discriminate|].
  destruct (Ascii.eqb a c); [discriminate|].
  destruct (split_on c s); discriminate.
Qed.

Lemma split_on_absent (c : Ascii.ascii) (s : string) :
  absent c s = true -> split_on c s = [s].
Proof.
  induction s as [|a s IH]; simpl; [reflexivity|].
  intros [Ha Hs]%andb_prop. apply negb_true_iff in Ha. rewrite Ha.
  now rewrite (IH Hs).
Qed.

Lemma split_on_app (c : Ascii.ascii) (s1 s2 : string) :
  absent c s1 = true ->
  split_on c (s1 +:+ String c s2) = s1 :: split_on c s2.
Proof.
  induction s1 as [|a s1 IH]; simpl.
  - intros _. now rewrite Ascii.eqb_refl.
  - intros [Ha Hs]%andb_prop. apply negb_true_iff in Ha. rewrite Ha.
    now rewrite (IH Hs).
Qed.

Lemma absent_app (c : Ascii.ascii) (s1 s2 : string) :
  absent c (s1 +:+ s2) = absent c s1 && absent c s2.
Proof.
  induction s1 as [|a s1 IH]; simpl; [reflexivity|].
  now rewrite IH, andb_assoc.
Qed.

Lemma split_on_concat (c : Ascii.ascii) (rows : list string) :
  rows <> [] ->
  forallb (absent c) rows = true ->
  split_on c (String.concat (String c "") rows) = rows.
Proof.
  induction rows as [|row rows IH]; [contradiction|].
  intros _ [Hrow Hrows]%andb_prop.
  destruct rows as [|row' rows].
  - simpl. now apply split_on_absent.
  - change (String.concat (String c "") (row :: row' :: rows))
      with (row +:+ String c (String.concat (String c "") (row' :: rows))).
    rewrite split_on_app by exact Hrow.
    now rewrite IH.
Qed.

Section ExportFacts.

Variable Number_toString : float -> string.

Lemma csv_row_fields (d : TimePoint) :
  prints_cleanly Number_toString d = true ->
  split_on COMMA (csv_row Number_toString d)
  = [ Number_toString (of_Z (t d)); Number_toString (population d);
      Number_toString (employed d); Number_toString (unemployed d);
      Number_toString (migration d) ]
  /\ absent LF (csv_row Number_toString d) = true.
Proof.
  unfold prints_cleanly. cbn [forallb]. intros H.
  repeat match type of H with
         | (_ && _) = true => apply andb_prop in H; destruct H as [? H]
         end.
  repeat match goal with
         | E : (_ && _) = true |- _ => apply andb_prop in E; destruct E
         end.
  unfold csv_row. split.
  - repeat (etransitivity;
            [apply (split_on_app COMMA); assumption|]; f_equal).
    now apply split_on_absent.
  - rewrite !absent_app.
    repeat match goal with
           | E : absent LF _ = true |- _ => rewrite E; clear E
           end.
    reflexivity.
Qed.

(** X14.  The exported text reads back as written: cut at the line feeds,
    it is the header line followed by one row per snapshot, in the order of
    the snapshots (and by a single empty line when there is no snapshot);
    cut at the commas, every row is its five printed fields.  This holds
    when no printed field contains a comma or a line feed. *)
Theorem csv_reads_back (data : list TimePoint) :
  forallb (prints_cleanly Number_toString) data = true ->
  split_on LF (csv_text Number_toString data)
  = "t,population,employed,unemployed,migration"
    :: match data with
       | [] => [""]
       | _ => map (csv_row Number_toString) data
       end
  /\ Forall
       (fun d =>
          split_on COMMA (csv_row Number_toString d)
          = [ Number_toString (of_Z (t d)); Number_toString (population d);
              Number_toString (employed d); Number_toString (unemployed d);
              Number_toString (migration d) ])
       data.
Proof.
  intros Hclean.
  assert (Hrows : Forall (fun d => prints_cleanly Number_toString d = true)
                         data).
  { apply List.Forall_forall. intros d Hd.
    rewrite forallb_forall in Hclean. now apply Hclean. }
  split.
  - unfold csv_text, header.
    etransitivity;
      [apply (split_on_app LF "t,population,employed,unemployed,migration");
       reflexivity|].
    f_equal.
    destruct data as [|d data]; [reflexivity|].
    apply split_on_concat; [discriminate|].
    apply forallb_forall. intros row Hrow.
    apply List.in_map_iff in Hrow as [d' [<- Hd']].
    rewrite List.Forall_forall in Hrows.
    now apply csv_row_fields, Hrows.
  - eapply List.Forall_impl; [|exact Hrows].
    intros d Hd. now apply csv_row_fields.
Qed.

End ExportFacts.

Lemma csv_reads_back_witness :
  forallb (prints_cleanly integer_toString)
    (take 3 (simulate sin_taylor defaults)) = true
  /\ split_on LF (csv_text integer_toString
                    (take 3 (simulate sin_taylor defaults)))
     = "t,population,employed,unemployed,migration"
       :: match take 3 (simulate sin_taylor defaults) with
          | [] => [""]
          | _ => map (csv_row integer_toString)
                     (take 3 (simulate sin_taylor defaults))
          end
  /\ Forall
       (fun d =>
          split_on COMMA (csv_row integer_toString d)
          = [ integer_toString (of_Z (t d)); integer_toString (population d);
              integer_toString (employed d); integer_toString (unemployed d);
              integer_toString (migration d) ])
       (take 3 (simulate sin_taylor defaults)).
Proof.
  assert (H : forallb (prints_cleanly integer_toString)
                (take 3 (simulate sin_taylor defaults)) = true)
    by (vm_compute; reflexivity).
  split; [exact H|].
  exact (csv_reads_back integer_toString _ H).
Defined.

(** The export of the first three default months. *)
Example csv_default :
  split_on LF (csv_text integer_toString (take 3 (simulate sin_taylor defaults)))
  = [ "t,population,employed,unemployed,migration";
      "0,145973754,89627885,9634268,10625";
      "1,145947514,91728013,7516297,10625";
      "2,145921282,93880795,5345677,10625" ].
Proof. vm_compute. reflexivity. Qed.

(** X15.  The run is the two recurrences of the specification, month by
    month: the population recurrence, which does not involve employedShare,
    and the employedShare recurrence, which does not involve the
    population; a snapshot combines the two only in employed and
    unemployed. *)
Theorem simulate_closed_form (Math_sin : float -> float)
    (params : ScenarioParams) :
  simulate Math_sin params
  = map (spec_snapshot Math_sin params) (seq 0 (Z.to_nat (months params))).
Proof.
  rewrite simulate_unroll. apply map_ext. intros n.
  unfold spec_snapshot.
  rewrite <- (state_after_population Math_sin),
    <- state_after_employedShare.
  reflexivity.
Qed.

(** ** The request logger *)

Lemma split_on_head_absent (c : Ascii.ascii) (s : string) :
  absent c (default "" (head (split_on c s))) = true.
Proof.
  induction s as [|a s IH]; simpl; [reflexivity|].
  destruct (Ascii.eqb a c) eqn:Ha; [reflexivity|].
  destruct (split_on c s) as [|piece rest]; simpl in *.
  - now rewrite Ha.
  - now rewrite Ha, IH.
Qed.

Lemma absent_Forall (c : Ascii.ascii) (s : string) :
  absent c s = true
  <-> List.Forall (fun a => Ascii.eqb a c = false)
        (String.list_ascii_of_string s).
Proof.
  induction s as [|a s IH]; simpl.
  - split; [constructor|reflexivity].
  - rewrite andb_true_iff, negb_true_iff, IH. split.
    + intros [Ha Hs]. now constructor.
    + intros H. inversion H; subst. now split.
Qed.

Lemma skip_whitespace_suffix (l : list Ascii.ascii) :
  exists skipped, l = skipped ++ skip_whitespace l.
Proof.
  induction l as [|a l [skipped IH]]; simpl.
  - now exists [].
  - destruct (js_whitespace a).
    + exists (a :: skipped). simpl. now f_equal.
    + now exists [].
Qed.

Lemma skip_whitespace_head (l : list Ascii.ascii) :
  match skip_whitespace l with
  | [] => True
  | first :: _ => js_whitespace first = false
  end.
Proof.
  induction l as [|a l IH]; simpl; [exact I|].
  destruct (js_whitespace a) eqn:Ha; [exact IH|exact Ha].
Qed.

(** What [trim] leaves: a stretch of the characters of [s], in order, that
    neither starts nor ends with white space. *)
Lemma trim_spec (s : string) :
  trimmed (trim s) = true
  /\ exists before after,
       String.list_ascii_of_string s
       = before ++ String.list_ascii_of_string (trim s) ++ after.
Proof.
  unfold trimmed, trim.
  rewrite String.list_ascii_of_string_of_list_ascii.
  set (l := String.list_ascii_of_string s).
  destruct (skip_whitespace_suffix l) as [before Hl].
  destruct (skip_whitespace_suffix (rev (skip_whitespace l)))
    as [after Hr].
  set (kept := skip_whitespace (rev (skip_whitespace l))) in *.
  assert (Hkept : skip_whitespace l = rev kept ++ rev after).
  { rewrite <- (rev_involutive (skip_whitespace l)), Hr.
    now rewrite rev_app_distr. }
  split.
  - rewrite rev_involutive. apply andb_true_iff. split.
    + pose proof (skip_whitespace_head l) as Hhead.
      rewrite Hkept in Hhead.
      destruct (rev kept) as [|first rest]; [reflexivity|].
      simpl in Hhead. now rewrite Hhead.
    + pose proof (skip_whitespace_head (rev (skip_whitespace l))) as Hhead.
      fold kept in Hhead.
      destruct kept as [|last rest]; [reflexivity|]. now rewrite Hhead.
  - exists before, (rev after). now rewrite Hl at 1; rewrite Hkept.
Qed.

Lemma trim_absent (c : Ascii.ascii) (s : string) :
  absent c s = true -> absent c (trim s) = true.
Proof.
  rewrite !absent_Forall.
  destruct (trim_spec s) as [_ (before & after & ->)].
  intros H. apply List.Forall_app in H as [_ H].
  now apply List.Forall_app in H as [H _].
Qed.

(** X16.  A non-empty [x-forwarded-for] string decides the logged address:
    it is the text before the first comma, without the white space around
    it.  It contains no comma, neither starts nor ends with white space,
    and the address of the socket plays no part in it. *)
Theorem forwarded_address_logged (req : Request)
    (h : gmap string HeaderValue) (fwd : string) :
  headers req = Some h ->
  h !! "x-forwarded-for" = Some (HString fwd) ->
  fwd <> "" ->
  exists first rest,
    split_on COMMA fwd = first :: rest
    /\ logged_ip req = trim first
    /\ absent COMMA (logged_ip req) = true
    /\ trimmed (logged_ip req) = true
    /\ forall s, logged_ip (with_socket req s) = logged_ip req.
Proof.
  intros Hh Hfwd Hne.
  assert (Hip : forall r, headers r = Some h ->
                          logged_ip r
                          = trim (default "" (head (split_on COMMA fwd)))).
  { intros r Hr. unfold logged_ip. rewrite Hr. simpl. rewrite Hfwd.
    now rewrite decide_False. }
  pose proof (split_on_head_absent COMMA fwd) as Habsent.
  destruct (split_on COMMA fwd) as [|first rest] eqn:Hsplit.
  { now apply split_on_nonempty in Hsplit. }
  exists first, rest. simpl in Habsent.
  rewrite (Hip req Hh). simpl.
  split; [reflexivity|]. split; [reflexivity|].
  split; [now apply trim_absent|].
  split; [apply trim_spec|].
  intros s. now rewrite (Hip (with_socket req s) Hh).
Qed.

Lemma forwarded_address_logged_witness :
  headers forwarded_request = Some forwarded_headers
  /\ forwarded_headers !! "x-forwarded-for"
     = Some (HString "  203.0.113.7 , 10.0.0.1")
  /\ "  203.0.113.7 , 10.0.0.1" <> ""
  /\ exists first rest,
       split_on COMMA "  203.0.113.7 , 10.0.0.1" = first :: rest
       /\ logged_ip forwarded_request = trim first
       /\ absent COMMA (logged_ip forwarded_request) = true
       /\ trimmed (logged_ip forwarded_request) = true
       /\ forall s,
            logged_ip (with_socket forwarded_request s)
            = logged_ip forwarded_request.
Proof.
  split; [reflexivity|]. split; [reflexivity|]. split; [discriminate|].
  apply (forwarded_address_logged forwarded_request forwarded_headers
           "  203.0.113.7 , 10.0.0.1");
    [reflexivity|reflexivity|discriminate].
Defined.

(** The entry of this request. *)
Example forwarded_entry :
  handler forwarded_request "2026-01-01T00:00:00.000Z"
  = Some ("2026-01-01T00:00:00.000Z" +:+ String TAB "203.0.113.7"
          +:+ String TAB "curl/8" +:+ String TAB "GET /data/policy.json"
          +:+ String LF "").
Proof. vm_compute. reflexivity. Qed.
